(** * Brainlive: the Neo4j brain-visualisation control client

    A shallow embedding of [neo4j_brain_control.py], a command-line client
    that sends one HTTP request (activate, reset or status) to the
    visualisation server and prints a summary of the answer.

    Python values are modelled as follows.
    - [str] is [string]; one [ascii] stands for one character.  The
      messages of the script are kept byte for byte (UTF-8).
    - A value decoded by [response.json()] is a [json] tree; a [dict] is an
      association list in insertion order, with pairwise distinct keys.
    - A function that prints and may raise is a computation in the monad
      [M]: it yields the list of its output events and either a value or
      the exception it was left with.
    - The server, [json.dumps] and [repr] belong to the environment and
      are parameters of the client. *)

From Stdlib Require Import ZArith Ascii String DecimalString.
From stdpp Require Import base list strings gmap.

Open Scope string_scope.
Open Scope list_scope.

#[local] Set Warnings "-register-all".

(** ** Strings *)

Module Str.

Definition LF : string := String "010"%char EmptyString.

(** [str(n)] for an [int]. *)
Definition of_Z (z : Z) : string := NilZero.string_of_int (Z.to_int z).

(** [s.split(sep)] for a one-character separator: the pieces between the
    occurrences of [sep], one more than there are occurrences. *)
Fixpoint split (sep : ascii) (s : string) : list string :=
  match s with
  | EmptyString => [EmptyString]
  | String c s' =>
      if Ascii.eqb c sep then EmptyString :: split sep s'
      else match split sep s' with
           | piece :: pieces => String c piece :: pieces
           | [] => [String c EmptyString]
           end
  end.

(** [sep.join(pieces)]. *)
Fixpoint join (sep : string) (pieces : list string) : string :=
  match pieces with
  | [] => EmptyString
  | [piece] => piece
  | piece :: rest => piece +:+ sep +:+ join sep rest
  end.

(** [c in s] for a character [c]. *)
Fixpoint has_char (c : ascii) (s : string) : bool :=
  match s with
  | EmptyString => false
  | String c' s' => Ascii.eqb c' c || has_char c s'
  end.

(** [sub in s]: [sub] occurs in [s] as a contiguous run. *)
Fixpoint contains (sub s : string) : bool :=
  String.prefix sub s ||
  match s with
  | EmptyString => false
  | String _ s' => contains sub s'
  end.

(** The characters of [s], each as a one-character string (what
    iterating over a [str] yields). *)
Fixpoint chars (s : string) : list string :=
  match s with
  | EmptyString => []
  | String c s' => String c EmptyString :: chars s'
  end.

End Str.

(** ** Python values, exceptions and output *)

(** A value decoded from a JSON body.  [JNum] stands for a number; in every
    operation the client applies, a [float] behaves like an [int] (true
    unless zero, neither iterable nor subscriptable, hashable, never equal
    to a [str]). *)
Inductive json : Type :=
| JNull
| JBool (b : bool)
| JNum (n : Z)
| JStr (s : string)
| JList (items : list json)
| JDict (fields : list (string * json)).

(** The classes of [Exception] the client can meet.  [RequestException]
    stands for every class of the HTTP library that is not a [ValueError];
    the library also raises [ValueError]s (a URL without scheme). *)
Inductive exc_class : Type :=
| ValueError
| KeyError
| TypeError
| AttributeError
| RequestException.

(** An instance of [Exception] with the text [str(e)] gives for it. *)
Record exception : Type := Exception {
  exc_class_of : exc_class;
  exc_str : string
}.

(** What a [raise] can carry: an [Exception], or [SystemExit], which is a
    [BaseException] only and passes through [except Exception]. *)
Inductive raised : Type :=
| Exc (e : exception)
| SystemExit (code : Z).

Inductive parser_id : Type :=
| MainParser
| ActivarParser
| ReiniciarParser
| EstadoParser.

(** The errors [argparse] reports on this command line. *)
Inductive usage_error : Type :=
| ExpectedOneArgument
| ExpectedAtLeastOneArgument
| MissingRequired
| InvalidChoice
| UnrecognizedArguments.

(** One output action of the process: a [print] call with its text, the
    help of a parser on standard output, or the usage and error message
    [argparse] writes to standard error before it exits. *)
Inductive event : Type :=
| Print (text : string)
| PrintHelp (p : parser_id)
| UsageError (p : parser_id) (why : usage_error).

(** ** The monad of printing computations that may raise *)

Inductive outcome (A : Type) : Type :=
| Ret (a : A)
| Raise (e : raised).
Arguments Ret {A} a.
Arguments Raise {A} e.

Definition M (A : Type) : Type := (outcome A * list event)%type.

Definition ret {A : Type} (a : A) : M A := (Ret a, []).

Definition raise {A : Type} (e : raised) : M A := (Raise e, []).

Definition bind {A B : Type} (m : M A) (k : A -> M B) : M B :=
  match m with
  | (Ret a, out) => let '(r, out') := k a in (r, out ++ out')
  | (Raise e, out) => (Raise e, out)
  end.

#[global] Instance M_ret : MRet M := @ret.
#[global] Instance M_bind : MBind M := fun A B k m => bind m k.

Definition print (text : string) : M unit := (Ret tt, [Print text]).

(** [try: body  except C as e: handler e], where [handles] tells the
    exceptions of class [C]. *)
Definition try_except {A : Type} (body : M A)
    (handles : exception -> bool) (handler : exception -> M A) : M A :=
  match body with
  | (Raise (Exc e), out) =>
      if handles e then let '(r, out') := handler e in (r, out ++ out')
      else body
  | _ => body
  end.

Definition except_Exception (e : exception) : bool := true.

Definition except_ValueError (e : exception) : bool :=
  match exc_class_of e with
  | ValueError => true
  | _ => false
  end.

(** [for x in xs: body x]. *)
Fixpoint for_each {A : Type} (xs : list A) (body : A -> M unit) : M unit :=
  match xs with
  | [] => ret tt
  | x :: rest => body x;; for_each rest body
  end.

(** [for i, x in enumerate(xs): body i x], counting from [i]. *)
Fixpoint for_enumerate {A : Type} (i : nat) (xs : list A)
    (body : nat -> A -> M unit) : M unit :=
  match xs with
  | [] => ret tt
  | x :: rest => body i x;; for_enumerate (S i) rest body
  end.

(** The exit status of the process: 0 when the script runs to its end, the
    code of [sys.exit], and 1 for an exception nobody caught. *)
Definition exit_status {A : Type} (r : outcome A) : Z :=
  match r with
  | Ret _ => 0
  | Raise (SystemExit code) => code
  | Raise (Exc _) => 1
  end.

(** ** The operations of Python the client uses *)

Definition type_name (v : json) : string :=
  match v with
  | JNull => "NoneType"
  | JBool _ => "bool"
  | JNum _ => "int"
  | JStr _ => "str"
  | JList _ => "list"
  | JDict _ => "dict"
  end.

(** Truth value of [v] in an [if]. *)
Definition truthy (v : json) : bool :=
  match v with
  | JNull => false
  | JBool b => b
  | JNum n => negb (n =? 0)%Z
  | JStr s => negb (String.eqb s EmptyString)
  | JList items => match items with [] => false | _ => true end
  | JDict fields => match fields with [] => false | _ => true end
  end.

Definition is_dict (v : json) : bool :=
  match v with
  | JDict _ => true
  | _ => false
  end.

(** A [list] and a [dict] cannot be members of a [set]. *)
Definition hashable (v : json) : bool :=
  match v with
  | JList _ | JDict _ => false
  | _ => true
  end.

(** [v == s] for a [str] [s]: only an equal [str] is equal to it. *)
Definition eq_str (s : string) (v : json) : bool :=
  match v with
  | JStr s' => String.eqb s s'
  | _ => false
  end.

Fixpoint dict_lookup (key : string) (fields : list (string * json)) : option json :=
  match fields with
  | [] => None
  | (k, v) :: rest => if String.eqb k key then Some v else dict_lookup key rest
  end.

Definition quoted (s : string) : string := "'" +:+ s +:+ "'".

Definition type_error {A : Type} (msg : string) : M A :=
  raise (Exc (Exception TypeError msg)).

(** [obj.get(key, default)]. *)
Definition py_get (obj : json) (key : string) (dflt : json) : M json :=
  match obj with
  | JDict fields => ret (default dflt (dict_lookup key fields))
  | _ => raise (Exc (Exception AttributeError
                  (quoted (type_name obj) +:+ " object has no attribute 'get'")))
  end.

(** [obj[key]] for a [str] key.  (Error texts as CPython 3.11 to 3.13 words
    them; the text of a [KeyError] is the [repr] of the key, which for the
    keys of this script is the key in single quotes.) *)
Definition py_getitem (obj : json) (key : string) : M json :=
  match obj with
  | JDict fields =>
      match dict_lookup key fields with
      | Some v => ret v
      | None => raise (Exc (Exception KeyError (quoted key)))
      end
  | JList _ => type_error "list indices must be integers or slices, not str"
  | JStr _ => type_error "string indices must be integers, not 'str'"
  | _ => type_error (quoted (type_name obj) +:+ " object is not subscriptable")
  end.

(** [s in container] for a [str] [s]: an equal item of a [list], a
    substring of a [str], a key of a [dict]. *)
Definition py_contains (s : string) (container : json) : M bool :=
  match container with
  | JList items => ret (existsb (eq_str s) items)
  | JStr text => ret (Str.contains s text)
  | JDict fields => ret (existsb (fun kv => String.eqb s (fst kv)) fields)
  | _ => type_error ("argument of type " +:+ quoted (type_name container)
                     +:+ " is not iterable")
  end.

(** What iterating over [v] yields. *)
Definition py_iter (v : json) : M (list json) :=
  match v with
  | JList items => ret items
  | JStr text => ret (JStr <$> Str.chars text)
  | JDict fields => ret (JStr <$> fields.*1)
  | _ => type_error (quoted (type_name v) +:+ " object is not iterable")
  end.

(** [len(v)]. *)
Definition py_len (v : json) : M nat :=
  match v with
  | JList items => ret (length items)
  | JStr text => ret (String.length text)
  | JDict fields => ret (length fields)
  | _ => type_error ("object of type " +:+ quoted (type_name v) +:+ " has no len()")
  end.

(** The [str] members of [set(items)], built item by item; the first item
    that cannot be hashed stops it.  The client only ever compares the set
    with strings, so members of other types are left out. *)
Fixpoint set_of_items (items : list json) (acc : gset string) : M (gset string) :=
  match items with
  | [] => ret acc
  | v :: rest =>
      if hashable v then
        set_of_items rest (match v with JStr s => acc ∪ {[s]} | _ => acc end)
      else type_error ("unhashable type: " +:+ quoted (type_name v))
  end.

(** [set(v)], restricted to its [str] members. *)
Definition py_set (v : json) : M (gset string) :=
  items ← py_iter v; set_of_items items ∅.

(** ** HTTP *)

Inductive http_method : Type := GET | POST.

Record request : Type := Request {
  req_method : http_method;
  req_url : string;
  req_json : option json
}.

(** A response: [status_code], [text] (the raw body) and what [json()]
    gives, the decoded body or the exception for a body that is not JSON. *)
Record response : Type := Response {
  status_code : Z;
  text : string;
  json_body : exception + json
}.

Definition of_reply {A : Type} (r : exception + A) : M A :=
  match r with
  | inl e => raise (Exc e)
  | inr a => ret a
  end.

(** ** The command line *)

(** The attributes of [args]; [nodes] and [append] are only there (and
    only read) for the subcommand [activar]. *)
Record namespace : Type := Namespace {
  server : string;
  comando : option string;
  nodes : list string;
  append : bool
}.

Definition DEFAULT_SERVER_URL : string := "http://localhost:3000/api/brain".

(** *** [parser.parse_args()]

    The parsers the script builds: the main parser with [--server/-s] (one
    argument) and the optional positional [comando], and one parser per
    subcommand; [activar] has [--nodes/-n] (one or more arguments,
    required) and the flag [--append/-a]; every parser has [-h/--help].

    [argparse] is modelled on the command lines in which every argument
    that starts with a dash is one of these option strings written in
    full ([modelled]); abbreviated options, [--opt=value], [-sVALUE], a
    lone dash or double dash and negative numbers are outside the model.
    On such a command line an argument is an option exactly when it starts
    with a dash. *)

Definition is_option (arg : string) : bool := String.prefix "-" arg.

Definition option_strings : list string :=
  ["-h"; "--help"; "-s"; "--server"; "-n"; "--nodes"; "-a"; "--append"].

Definition one_of (names : list string) (arg : string) : bool :=
  existsb (String.eqb arg) names.

Definition modelled (argv : list string) : bool :=
  forallb (fun arg => negb (is_option arg) || one_of option_strings arg) argv.

(** [parser.error(...)]: usage and message on standard error, exit status 2. *)
Definition usage_fail {A : Type} (p : parser_id) (why : usage_error) : M A :=
  (Raise (SystemExit 2), [UsageError p why]).

(** The help action: the help on standard output, exit status 0. *)
Definition help_exit {A : Type} (p : parser_id) : M A :=
  (Raise (SystemExit 0), [PrintHelp p]).

Definition is_activar (p : parser_id) : bool :=
  match p with
  | ActivarParser => true
  | _ => false
  end.

Definition nonempty {A : Type} (l : list A) : bool :=
  match l with
  | [] => false
  | _ => true
  end.

(** The arguments of a subcommand, cut at its options: the arguments before
    the first option, then each option with the arguments that follow it up
    to the next option. *)
Definition group_step (arg : string)
    (acc : list string * list (string * list string))
    : list string * list (string * list string) :=
  let '(lead, gs) := acc in
  if is_option arg then ([], (arg, lead) :: gs) else (arg :: lead, gs).

Definition groups (argv : list string) : list string * list (string * list string) :=
  foldr group_step ([], []) argv.

(** The options of a subcommand, left to right.  [--nodes] takes all the
    arguments that follow it and needs one; arguments nothing takes and
    options the parser does not have are kept as unrecognized ([extras])
    and parsing goes on. *)
Fixpoint parse_options (p : parser_id) (gs : list (string * list string))
    (found : option (list string)) (app extras : bool)
    : M (option (list string) * bool * bool) :=
  match gs with
  | [] => ret (found, app, extras)
  | (opt, vals) :: rest =>
      if one_of ["-h"; "--help"] opt then help_exit p
      else if is_activar p && one_of ["-n"; "--nodes"] opt then
        match vals with
        | [] => usage_fail p ExpectedAtLeastOneArgument
        | _ => parse_options p rest (Some vals) app extras
        end
      else if is_activar p && one_of ["-a"; "--append"] opt then
        parse_options p rest found true (extras || nonempty vals)
      else parse_options p rest found app true
  end.

Definition parse_subcommand (p : parser_id) (argv : list string)
    : M (list string * bool * bool) :=
  let '(lead, gs) := groups argv in
  '(found, app, extras) ← parse_options p gs None false (nonempty lead);
  match found with
  | None => if is_activar p then usage_fail p MissingRequired
            else ret ([], app, extras)
  | Some vals => ret (vals, app, extras)
  end.

Definition subparser_of (name : string) : option parser_id :=
  if String.eqb name "activar" then Some ActivarParser
  else if String.eqb name "reiniciar" then Some ReiniciarParser
  else if String.eqb name "estado" then Some EstadoParser
  else None.

(** The end of [parse_args]: unrecognized arguments are an error. *)
Definition finish_parse (args : namespace) (extras : bool) : M namespace :=
  if extras then usage_fail MainParser UnrecognizedArguments else ret args.

(** The main parser, left to right: its options up to the first argument
    no option takes, which names the subcommand and hands the rest of the
    command line to that parser. *)
Fixpoint parse_main (argv : list string) (url : string) (extras : bool) : M namespace :=
  match argv with
  | [] => finish_parse (Namespace url None [] false) extras
  | arg :: rest =>
      if one_of ["-h"; "--help"] arg then help_exit MainParser
      else if one_of ["-s"; "--server"] arg then
        match rest with
        | value :: rest' =>
            if is_option value then usage_fail MainParser ExpectedOneArgument
            else parse_main rest' value extras
        | [] => usage_fail MainParser ExpectedOneArgument
        end
      else if is_option arg then parse_main rest url true
      else
        match subparser_of arg with
        | Some p =>
            '(vals, app, extras') ← parse_subcommand p rest;
            finish_parse (Namespace url (Some arg) vals app) (extras || extras')
        | None => usage_fail MainParser InvalidChoice
        end
  end.

Definition parse_args (argv : list string) : option (M namespace) :=
  if modelled argv then Some (parse_main argv DEFAULT_SERVER_URL false) else None.

(** ** An environment for the examples

    A server that gives one fixed answer, and a plain renderer (the value on
    one line, strings in single quotes and unescaped) in the place of
    [json.dumps] and [repr]. *)

Definition answering (reply : exception + response) : request -> exception + response :=
  fun _ => reply.

Definition ok_json (v : json) : exception + response :=
  inr (Response 200 "<body>" (inr v)).

Fixpoint show (v : json) : string :=
  match v with
  | JNull => "null"
  | JBool true => "true"
  | JBool false => "false"
  | JNum n => Str.of_Z n
  | JStr s => quoted s
  | JList items => "[" +:+ Str.join ", " (show <$> items) +:+ "]"
  | JDict fields =>
      "{" +:+ Str.join ", "
                ((fun kv => match kv with (k, v') => quoted k +:+ ": " +:+ show v' end)
                   <$> fields) +:+ "}"
  end.

Definition show_dumps (ensure_ascii : bool) (v : json) : string := show v.

(** ** The client *)

Section Client.

(** The environment: the server's answer to a request (a response, or the
    exception the HTTP library raises), [json.dumps(v, indent=2,
    ensure_ascii=b)] and [repr(v)]. *)
Variable http : request -> exception + response.
Variable json_dumps : bool -> json -> string.
Variable repr : json -> string.

(** [str(v)], what an f-string puts for [{v}]. *)
Definition py_str (v : json) : string :=
  match v with
  | JStr s => s
  | JNull => "None"
  | JBool true => "True"
  | JBool false => "False"
  | JNum n => Str.of_Z n
  | _ => repr v
  end.

Definition requests_post (url : string) (body : option json) : M response :=
  of_reply (http (Request POST url body)).

Definition requests_get (url : string) : M response :=
  of_reply (http (Request GET url None)).

Definition response_json (r : response) : M json := of_reply (json_body r).

(** [{"id": id, "name": name}] *)
Definition node_dict (node : string * string) : json :=
  JDict [("id", JStr node.1); ("name", JStr node.2)].

Definition http_error_line (r : response) : string :=
  "❌ Error: " +:+ Str.of_Z (status_code r) +:+ " - " +:+ text r.

Definition connection_error_line (e : exception) : string :=
  "❌ Error de conexión: " +:+ exc_str e.

Definition node_line (mark : string) (node : string * string) : string :=
  " " +:+ mark +:+ " " +:+ node.1 +:+ " - " +:+ node.2.

Definition missing_line (node : string * string) : string :=
  "  " +:+ node.1 +:+ " - " +:+ node.2.

(** [activar_nodos(node_data, append, server_url)].  [nodes] is the list
    of dictionaries with the keys [id] and [name] made from [node_data];
    it is kept as the list of pairs, [node['id']] being the first
    component and [node['name']] the second. *)
Definition activar_nodos (node_data : list (string * string)) (append : bool)
    (server_url : string) : M unit :=
  let endpoint := server_url +:+ "/activate" in
  let nodes := node_data in
  let data := JDict [("nodes", JList (node_dict <$> nodes)); ("append", JBool append)] in
  try_except
    (print ("Enviando petición a " +:+ endpoint);;
     print ("Datos: " +:+ json_dumps false data);;
     response ← requests_post endpoint (Some data);
     if (status_code response =? 200)%Z then
       result ← response_json response;
       print (Str.LF +:+ "✅ Nodos activados");;
       print ("Estado: " +:+ py_str result);;
       found ← py_get result "activeNodes" JNull;
       if truthy found then
         print (Str.LF +:+ "Nodos activos:");;
         active_nodes ← py_getitem result "activeNodes";
         for_each nodes (fun node =>
           marked ← py_contains node.1 active_nodes;
           print (node_line (if marked : bool then "➤" else " ") node));;
         activated_ids ← py_set active_nodes;
         let requested_ids : gset string := list_to_set nodes.*1 in
         let missing := requested_ids ∖ activated_ids in
         if bool_decide (missing ≠ ∅) then
           print (Str.LF +:+ "⚠️ Advertencia: Algunos nodos solicitados no fueron activados:");;
           let missing_nodes := filter (fun n => n.1 ∈ missing) nodes in
           for_each missing_nodes (fun node => print (missing_line node))
         else ret tt
       else ret tt
     else print (http_error_line response))
    except_Exception
    (fun e => print (connection_error_line e)).

(** [reiniciar(server_url)] *)
Definition reiniciar (server_url : string) : M unit :=
  let endpoint := server_url +:+ "/reset" in
  try_except
    (print ("Enviando petición a " +:+ endpoint);;
     response ← requests_post endpoint None;
     if (status_code response =? 200)%Z then
       print (Str.LF +:+ "✅ Visualización reiniciada")
     else print (http_error_line response))
    except_Exception
    (fun e => print (connection_error_line e)).

Definition status_line (i : nat) (node_id node_name : json) : string :=
  " " +:+ Str.of_Z (Z.of_nat i + 1) +:+ ". " +:+ py_str node_id +:+ " - " +:+ py_str node_name.

(** The body of the loop over [active_nodes] in [verificar_estado]. *)
Definition status_entry (i : nat) (node : json) : M unit :=
  node_id ← (if is_dict node then py_getitem node "id" else ret node);
  node_name ← (if is_dict node then py_get node "name" (JStr "Sin nombre")
               else ret (JStr "Sin nombre"));
  print (status_line i node_id node_name).

(** [verificar_estado(server_url)] *)
Definition verificar_estado (server_url : string) : M unit :=
  let endpoint := server_url +:+ "/status" in
  try_except
    (print ("Enviando petición a " +:+ endpoint);;
     response ← requests_get endpoint;
     if (status_code response =? 200)%Z then
       result ← response_json response;
       active_nodes ← py_get result "activeNodes" (JList []);
       print (Str.LF +:+ "✅ Estado actual:");;
       (if truthy active_nodes then
          n ← py_len active_nodes;
          print (Str.LF +:+ "Hay " +:+ Str.of_Z (Z.of_nat n) +:+ " nodos activos:");;
          items ← py_iter active_nodes;
          for_enumerate 0 items status_entry
        else print (Str.LF +:+ "No hay nodos activos actualmente"));;
       print (Str.LF +:+ "Respuesta completa:");;
       print (json_dumps true result)
     else print (http_error_line response))
    except_Exception
    (fun e => print (connection_error_line e)).

(** *** The script *)

(** [node_id, *name_parts = pieces]: fails on an empty list. *)
Definition unpack_first (pieces : list string) : M (string * list string) :=
  match pieces with
  | [] => raise (Exc (Exception ValueError
                   "not enough values to unpack (expected at least 1, got 0)"))
  | first :: others => ret (first, others)
  end.

(** One turn of the loop over [args.nodes]: the pair made from [node_str]. *)
Definition parse_node (node_str : string) : M (string * string) :=
  '(node_id, name_parts) ← unpack_first (Str.split ":" node_str);
  let name := if nonempty name_parts then Str.join ":" name_parts
              else "Neuron " +:+ node_id in
  ret (node_id, name).

Fixpoint parse_nodes (strs : list string) (node_data : list (string * string))
    : M (list (string * string)) :=
  match strs with
  | [] => ret node_data
  | node_str :: rest =>
      pair ← parse_node node_str;
      parse_nodes rest (node_data ++ [pair])
  end.

Definition sys_exit (code : Z) : M unit := raise (SystemExit code).

Definition format_error : string :=
  "❌ Error: Formato de nodo inválido. Use 'id:nombre' (ej: '144:Visual')".

(** The branch of the script for [activar]. *)
Definition activar_branch (strs : list string) (append : bool) (url : string) : M unit :=
  try_except
    (node_data ← parse_nodes strs [];
     activar_nodos node_data append url)
    except_ValueError
    (fun e => print format_error;; sys_exit 1).

Definition print_help : M unit := (Ret tt, [PrintHelp MainParser]).

(** [not args.comando] *)
Definition no_comando (args : namespace) : bool :=
  match comando args with
  | None => true
  | Some name => String.eqb name EmptyString
  end.

Definition comando_is (args : namespace) (name : string) : bool :=
  match comando args with
  | None => false
  | Some c => String.eqb c name
  end.

(** The script after [args = parser.parse_args()]. *)
Definition main_body (args : namespace) : M unit :=
  (if no_comando args then print_help;; sys_exit 1 else ret tt);;
  if comando_is args "activar" then activar_branch (nodes args) (append args) (server args)
  else if comando_is args "reiniciar" then reiniciar (server args)
  else if comando_is args "estado" then verificar_estado (server args)
  else print_help.

(** The whole script on the command line [argv] (without the program
    name), when [argv] is within the model of [argparse]. *)
Definition script (argv : list string) : option (M unit) :=
  match parse_args argv with
  | Some parsed => Some (args ← parsed; main_body args)
  | None => None
  end.

(** ** Vocabulary of the properties *)

(** [m] does not leave through [SystemExit]. *)
Definition no_exit {A : Type} (m : M A) : Prop :=
  match m.1 with
  | Raise (SystemExit _) => False
  | _ => True
  end.

(** [m] run after [out] has been printed. *)
Definition after {A : Type} (out : list event) (m : M A) : M A := (m.1, out ++ m.2).

(** [m] ends normally, whatever it printed. *)
Definition completes (m : M unit) : Prop := ∃ out, m = (Ret tt, out).

(** The exit status of the script on [argv]. *)
Definition script_status (argv : list string) : option Z :=
  (fun m : M unit => exit_status m.1) <$> script argv.

(** The request each operation sends. *)
Definition activate_request (node_data : list (string * string)) (app : bool)
    (url : string) : request :=
  Request POST (url +:+ "/activate")
    (Some (JDict [("nodes", JList (node_dict <$> node_data)); ("append", JBool app)])).

Definition reset_request (url : string) : request :=
  Request POST (url +:+ "/reset") None.

Definition status_request (url : string) : request :=
  Request GET (url +:+ "/status") None.

(** The two lines [activar_nodos] prints before it sends the request. *)
Definition activate_preamble (node_data : list (string * string)) (app : bool)
    (url : string) : list event :=
  [Print ("Enviando petición a " +:+ url +:+ "/activate");
   Print ("Datos: " +:+ json_dumps false
            (JDict [("nodes", JList (node_dict <$> node_data)); ("append", JBool app)]))].

(** [id] is an item of the list [actives] of a response. *)
Definition active_id (actives : list json) (id : string) : bool :=
  existsb (eq_str id) actives.

(** An entry of [activeNodes] the status report can show: a bare value, or
    an object that has an [id]. *)
Definition has_id (entry : json) : bool :=
  match entry with
  | JDict fields => match dict_lookup "id" fields with Some _ => true | None => false end
  | _ => true
  end.

(** The id the report shows for an entry: the entry itself when it is
    bare, its [id] when it is an object. *)
Definition shown_id (entry : json) : json :=
  match entry with
  | JDict fields => default JNull (dict_lookup "id" fields)
  | _ => entry
  end.

(** The name the report shows for an entry: the [name] of an object that
    has one, the placeholder otherwise. *)
Definition shown_name (entry : json) : json :=
  match entry with
  | JDict fields => default (JStr "Sin nombre") (dict_lookup "name" fields)
  | _ => JStr "Sin nombre"
  end.

(** How a run of [argparse] can end: with a value and nothing printed, with
    the help and status 0, or with a usage error and status 2. *)
Definition parse_outcome {A : Type} (m : M A) : Prop :=
  (∃ a, m = (Ret a, [])) ∨
  (∃ p, m = (Raise (SystemExit 0), [PrintHelp p])) ∨
  (∃ p why, m = (Raise (SystemExit 2), [UsageError p why])).

(** The exit status that follows from the outcome of [parse_args] alone:
    the status [argparse] exits with, 1 for a namespace without subcommand
    and 0 for a namespace with one. *)
Definition status_of_parse (parsed : M namespace) : Z :=
  match parsed.1 with
  | Ret args => if no_comando args then 1 else 0
  | Raise e => exit_status (Raise e : outcome unit)
  end.

(** Lines 41 to 54 of the source, the part of [activar_nodos] that runs once
    [activeNodes] is found, as a computation of its own: the line of each
    requested node, then the warning with the nodes that are missing. *)
Definition report_nodes (nodes : list (string * string)) (active_nodes : json) : M unit :=
  for_each nodes (fun node =>
    marked ← py_contains node.1 active_nodes;
    print (node_line (if marked : bool then "➤" else " ") node));;
  activated_ids ← py_set active_nodes;
  let requested_ids : gset string := list_to_set nodes.*1 in
  let missing := requested_ids ∖ activated_ids in
  if bool_decide (missing ≠ ∅) then
    print (Str.LF +:+ "⚠️ Advertencia: Algunos nodos solicitados no fueron activados:");;
    let missing_nodes := filter (fun n => n.1 ∈ missing) nodes in
    for_each missing_nodes (fun node => print (missing_line node))
  else ret tt.

(** The lines [activar_nodos] prints up to the heading of the report. *)
Definition activate_heading (node_data : list (string * string)) (app : bool)
    (url : string) (result : json) : list event :=
  activate_preamble node_data app url ++
  [Print (Str.LF +:+ "✅ Nodos activados");
   Print ("Estado: " +:+ py_str result);
   Print (Str.LF +:+ "Nodos activos:")].

(** The report of [report_nodes] when [marked] tells the ids that get the
    mark and [listed] the ids that count as activated. *)
Definition expected_report (marked listed : string → bool)
    (nodes : list (string * string)) : list event :=
  ((fun n => Print (" " +:+ (if marked n.1 then "➤" else " ") +:+ " "
                    +:+ n.1 +:+ " - " +:+ n.2)) <$> nodes) ++
  (let missing := filter (fun n => listed n.1 = false) nodes in
   if nonempty missing
   then Print (Str.LF +:+ "⚠️ Advertencia: Algunos nodos solicitados no fueron activados:")
        :: ((fun n => Print ("  " +:+ n.1 +:+ " - " +:+ n.2)) <$> missing)
   else []).

(** [None], [True], [False] and numbers: values that are neither iterable
    nor a container. *)
Definition is_scalar (v : json) : bool :=
  match v with
  | JNull | JBool _ | JNum _ => true
  | _ => false
  end.

(** The arguments that choose the server: none, or the option [so] ([-s]
    or [--server]) and the URL. *)
Definition server_args (so : string) (custom : option string) : list string :=
  match custom with
  | Some url => [so; url]
  | None => []
  end.

(** The namespaces [parse_args] can give: no subcommand, [reiniciar] or
    [estado], or [activar] with at least one node token, none of which
    starts with a dash. *)
Definition well_formed_args (args : namespace) : Prop :=
  comando args = None ∨
  comando args = Some "reiniciar" ∨
  comando args = Some "estado" ∨
  (comando args = Some "activar" ∧ nodes args ≠ [] ∧
   Forall (fun t => is_option t = false) (nodes args)).

(** ** Laws of the monad *)

Lemma bind_value {A B : Type} (a : A) (out : list event) (k : A → M B) :
  ((Ret a, out) : M A) ≫= k = after out (k a).
Proof. unfold mbind, M_bind, bind, after. by destruct (k a). Qed.

Lemma bind_ret {A B : Type} (a : A) (k : A → M B) : ret a ≫= k = k a.
Proof. unfold ret. rewrite bind_value. unfold after. by destruct (k a). Qed.

Lemma bind_print {B : Type} (s : string) (k : unit → M B) :
  print s ≫= k = after [Print s] (k tt).
Proof. apply bind_value. Qed.

Lemma bind_after {A B : Type} (out : list event) (m : M A) (k : A → M B) :
  after out m ≫= k = after out (m ≫= k).
Proof.
  unfold mbind, M_bind, bind, after. destruct m as [[a|e] o]; simpl; [|done].
  destruct (k a). simpl. by rewrite app_assoc.
Qed.

Lemma after_after {A : Type} (o1 o2 : list event) (m : M A) :
  after o1 (after o2 m) = after (o1 ++ o2) m.
Proof. unfold after. simpl. by rewrite app_assoc. Qed.

Lemma try_except_after {A : Type} (out : list event) (m : M A)
    (handles : exception → bool) (handler : exception → M A) :
  try_except (after out m) handles handler = after out (try_except m handles handler).
Proof.
  unfold try_except, after. destruct m as [[a|[e|code]] o]; simpl; try done.
  destruct (handles e); [|done]. destruct (handler e). simpl. by rewrite app_assoc.
Qed.

Ltac run_prints :=
  repeat first
    [ rewrite bind_print | rewrite bind_ret | rewrite bind_after
    | rewrite after_after | rewrite try_except_after ];
  cbv beta.

(** ** Properties of the string operations *)

Lemma split_not_nil (sep : ascii) (s : string) : Str.split sep s ≠ [].
Proof.
  destruct s as [|c s]; simpl; [done|].
  destruct (Ascii.eqb c sep); [done|].
  by destruct (Str.split sep s).
Qed.

Lemma split_free (sep : ascii) (s : string) :
  Str.has_char sep s = false → Str.split sep s = [s].
Proof.
  induction s as [|c s IH]; simpl; [done|].
  intros [Hc Hs]%orb_false_elim. rewrite Hc, (IH Hs). done.
Qed.

Lemma split_at_first (sep : ascii) (a b : string) :
  Str.has_char sep a = false →
  Str.split sep (a +:+ String sep b) = a :: Str.split sep b.
Proof.
  induction a as [|c a IH]; simpl.
  - intros _. by rewrite Ascii.eqb_refl.
  - intros [Hc Ha]%orb_false_elim. rewrite Hc, (IH Ha). done.
Qed.

Lemma join_split (sep : ascii) (s : string) :
  Str.join (String sep EmptyString) (Str.split sep s) = s.
Proof.
  induction s as [|c s IH]; simpl; [done|].
  destruct (Ascii.eqb_spec c sep) as [->|_].
  - pose proof (split_not_nil sep s) as Hne.
    destruct (Str.split sep s) as [|p ps]; [done|].
    simpl in *. by rewrite IH.
  - destruct (Str.split sep s) as [|p ps] eqn:Hs.
    + by destruct (split_not_nil sep s).
    + destruct ps as [|q qs]; simpl in *; by rewrite <- IH.
Qed.

Lemma has_char_cut (sep : ascii) (s : string) :
  Str.has_char sep s = true →
  ∃ a b, s = a +:+ String sep b ∧ Str.has_char sep a = false.
Proof.
  induction s as [|c s IH]; simpl; [done|].
  destruct (Ascii.eqb_spec c sep) as [->|Hne]; simpl.
  - intros _. by exists EmptyString, s.
  - intros (a & b & -> & Ha)%IH. exists (String c a), b. split; [done|].
    simpl. rewrite Ha. by destruct (Ascii.eqb_spec c sep).
Qed.

Lemma parse_node_colon (id name : string) :
  Str.has_char ":" id = false →
  parse_node (id +:+ String ":" name) = ret (id, name).
Proof.
  intros Hid. unfold parse_node. rewrite (split_at_first _ _ _ Hid).
  pose proof (split_not_nil ":" name) as Hne.
  pose proof (join_split ":" name) as Hj.
  destruct (Str.split ":" name) as [|p ps]; [done|].
  simpl in *. by rewrite Hj.
Qed.

Lemma parse_node_plain (node_str : string) :
  Str.has_char ":" node_str = false →
  parse_node node_str = ret (node_str, "Neuron " +:+ node_str).
Proof.
  intros Hfree. unfold parse_node. by rewrite (split_free _ _ Hfree).
Qed.

Lemma parse_node_total (node_str : string) :
  ∃ id name, parse_node node_str = ret (id, name).
Proof.
  destruct (Str.has_char ":" node_str) eqn:Hc.
  - apply has_char_cut in Hc as (a & b & -> & Ha). exists a, b.
    by apply parse_node_colon.
  - eexists _, _. by apply parse_node_plain.
Qed.

(** ** Computations that cannot leave through [SystemExit] *)

Lemma no_exit_ret {A : Type} (a : A) : no_exit (ret a).
Proof. done. Qed.

Lemma no_exit_mret {A : Type} (a : A) : no_exit (mret a : M A).
Proof. done. Qed.

Lemma no_exit_print (s : string) : no_exit (print s).
Proof. done. Qed.

Lemma no_exit_exc {A : Type} (e : exception) : no_exit (raise (Exc e) : M A).
Proof. done. Qed.

Lemma no_exit_type_error {A : Type} (msg : string) : no_exit (type_error msg : M A).
Proof. done. Qed.

Lemma no_exit_bind {A B : Type} (m : M A) (k : A → M B) :
  no_exit m → (∀ a, no_exit (k a)) → no_exit (m ≫= k).
Proof.
  unfold no_exit, mbind, M_bind, bind. destruct m as [[a|e] out]; simpl; [|done].
  intros _ Hk. specialize (Hk a). by destruct (k a).
Qed.

Lemma no_exit_if {A : Type} (b : bool) (m1 m2 : M A) :
  no_exit m1 → no_exit m2 → no_exit (if b then m1 else m2).
Proof. by destruct b. Qed.

Lemma no_exit_of_reply {A : Type} (r : exception + A) : no_exit (of_reply r).
Proof. by destruct r. Qed.

Lemma no_exit_for_each {A : Type} (xs : list A) (body : A → M unit) :
  (∀ x, no_exit (body x)) → no_exit (for_each xs body).
Proof.
  intros Hbody. induction xs as [|x xs IH]; simpl; [done|].
  apply no_exit_bind; auto.
Qed.

Lemma no_exit_for_enumerate {A : Type} (i : nat) (xs : list A) (body : nat → A → M unit) :
  (∀ j x, no_exit (body j x)) → no_exit (for_enumerate i xs body).
Proof.
  intros Hbody. revert i. induction xs as [|x xs IH]; intros i; simpl; [done|].
  apply no_exit_bind; auto.
Qed.

Lemma no_exit_py_get (obj : json) (key : string) (dflt : json) :
  no_exit (py_get obj key dflt).
Proof. by destruct obj. Qed.

Lemma no_exit_py_getitem (obj : json) (key : string) : no_exit (py_getitem obj key).
Proof. destruct obj; simpl; try done. by destruct (dict_lookup key fields). Qed.

Lemma no_exit_py_contains (s : string) (v : json) : no_exit (py_contains s v).
Proof. by destruct v. Qed.

Lemma no_exit_py_iter (v : json) : no_exit (py_iter v).
Proof. by destruct v. Qed.

Lemma no_exit_py_len (v : json) : no_exit (py_len v).
Proof. by destruct v. Qed.

Lemma no_exit_set_of_items (items : list json) (acc : gset string) :
  no_exit (set_of_items items acc).
Proof.
  revert acc. induction items as [|v items IH]; intros acc; simpl; [done|].
  destruct (hashable v); [apply IH | done].
Qed.

Lemma no_exit_py_set (v : json) : no_exit (py_set v).
Proof.
  apply no_exit_bind; [apply no_exit_py_iter | intros; apply no_exit_set_of_items].
Qed.

Create HintDb no_exit.
#[local] Hint Resolve no_exit_ret no_exit_mret no_exit_print no_exit_exc
  no_exit_type_error no_exit_of_reply no_exit_py_get no_exit_py_getitem
  no_exit_py_contains no_exit_py_iter no_exit_py_len no_exit_py_set : no_exit.

Ltac no_exit_step :=
  lazymatch goal with
  | |- no_exit (_ ≫= _) => apply no_exit_bind; [|intros]
  | |- no_exit (if _ then _ else _) => apply no_exit_if
  | |- no_exit (for_each _ _) => apply no_exit_for_each; intros
  | |- no_exit (for_enumerate _ _ _) =>
      apply no_exit_for_enumerate; intros; unfold status_entry
  | |- no_exit (let _ := _ in _) => cbv zeta
  | |- no_exit _ => solve [auto with no_exit]
  end.

(** An [except Exception] whose handler only prints ends normally when the
    body cannot call [sys.exit]. *)
Lemma try_print_completes (body : M unit) (line : exception → string) :
  no_exit body →
  completes (try_except body except_Exception (fun e => print (line e))).
Proof.
  unfold no_exit, completes, try_except.
  destruct body as [[[]|[e|code]] out]; simpl; [eauto | eauto | done].
Qed.

Lemma activar_nodos_completes (node_data : list (string * string)) (app : bool)
    (url : string) :
  completes (activar_nodos node_data app url).
Proof.
  apply try_print_completes. unfold requests_post, response_json.
  repeat no_exit_step.
Qed.

Lemma reiniciar_completes (url : string) : completes (reiniciar url).
Proof.
  apply try_print_completes. unfold requests_post. repeat no_exit_step.
Qed.

Lemma verificar_estado_completes (url : string) : completes (verificar_estado url).
Proof.
  apply try_print_completes. unfold requests_get, response_json.
  repeat no_exit_step.
Qed.

(** ** The script *)

Lemma parse_nodes_total (strs : list string) (acc : list (string * string)) :
  ∃ node_data,
    Forall2 (fun s p => parse_node s = ret p) strs node_data ∧
    parse_nodes strs acc = ret (acc ++ node_data).
Proof.
  revert acc. induction strs as [|s strs IH]; intros acc; simpl.
  - exists []. by rewrite app_nil_r.
  - destruct (parse_node_total s) as (id & name & Hs). rewrite Hs. simpl.
    destruct (IH (acc ++ [(id, name)])) as (rest & Hrest & ->).
    exists ((id, name) :: rest). split; [by constructor|].
    by rewrite <- app_assoc.
Qed.

Lemma activar_branch_eq (strs : list string) (app : bool) (url : string) :
  ∃ node_data,
    Forall2 (fun s p => parse_node s = ret p) strs node_data ∧
    activar_branch strs app url = activar_nodos node_data app url.
Proof.
  destruct (parse_nodes_total strs []) as (node_data & Hall & Hp).
  exists node_data. split; [done|].
  unfold activar_branch. rewrite Hp. simpl.
  destruct (activar_nodos_completes node_data app url) as [out ->]. done.
Qed.

Lemma activar_branch_completes (strs : list string) (app : bool) (url : string) :
  completes (activar_branch strs app url).
Proof.
  destruct (activar_branch_eq strs app url) as (node_data & _ & ->).
  apply activar_nodos_completes.
Qed.

Lemma main_body_no_comando (args : namespace) :
  no_comando args = true →
  main_body args = (Raise (SystemExit 1), [PrintHelp MainParser]).
Proof. intros H. unfold main_body. by rewrite H. Qed.

Lemma main_body_completes (args : namespace) :
  no_comando args = false → completes (main_body args).
Proof.
  intros H. unfold main_body. rewrite H. simpl.
  assert (∀ m : M unit, completes m → completes (let '(r, out') := m in (r, [] ++ out')))
    as Hlift by (intros m [out ->]; by exists out).
  apply Hlift.
  destruct (comando_is args "activar"); [apply activar_branch_completes|].
  destruct (comando_is args "reiniciar"); [apply reiniciar_completes|].
  destruct (comando_is args "estado"); [apply verificar_estado_completes|].
  by eexists.
Qed.

(** C2: a token with a colon gives the text before its first colon as id
    and all the text after that colon as name, later colons included; a
    token without colon gives itself as id and the name [Neuron] followed
    by the id. *)
Theorem parse_node_spec (node_str : string) :
  (∀ id name, node_str = id +:+ ":" +:+ name → Str.has_char ":" id = false →
     parse_node node_str = ret (id, name)) ∧
  (Str.has_char ":" node_str = true →
     ∃ id name, node_str = id +:+ ":" +:+ name ∧ Str.has_char ":" id = false) ∧
  (Str.has_char ":" node_str = false →
     parse_node node_str = ret (node_str, "Neuron " +:+ node_str)).
Proof.
  split; [|split].
  - intros id name -> Hid. by apply parse_node_colon.
  - apply has_char_cut.
  - apply parse_node_plain.
Qed.

(** C3: splitting a token at its colons never fails: every token gives a
    pair, the loop over the tokens gives the list of their pairs, and the
    branch of the script for [activar] is the call of [activar_nodos] on
    that list and ends normally; the handler that prints the format error
    and exits with status 1 is never run. *)
Theorem node_parsing_total :
  (∀ node_str, ∃ id name, parse_node node_str = ret (id, name)) ∧
  (∀ strs app url, ∃ node_data,
     Forall2 (fun s p => parse_node s = ret p) strs node_data ∧
     activar_branch strs app url = activar_nodos node_data app url ∧
     completes (activar_branch strs app url) ∧
     exit_status (activar_branch strs app url).1 = 0%Z).
Proof.
  split; [apply parse_node_total|].
  intros strs app url.
  destruct (activar_branch_eq strs app url) as (node_data & Hall & Heq).
  exists node_data. repeat split; try done.
  - apply activar_branch_completes.
  - by destruct (activar_branch_completes strs app url) as [out ->].
Qed.

(** C9 (amended): a token that is a colon-free id followed by one final
    colon gives the empty name, not the default name; whenever a token has
    a colon the name is the text after the first colon, so a token that
    ends in a colon after an earlier one keeps a name that is not empty. *)
Theorem parse_node_empty_name (id : string) :
  Str.has_char ":" id = false →
  parse_node (id +:+ ":") = ret (id, EmptyString) ∧
  (∀ name, parse_node (id +:+ ":" +:+ name) = ret (id, name)) ∧
  (∀ name, parse_node (id +:+ ":" +:+ name +:+ ":") = ret (id, name +:+ ":")).
Proof.
  intros Hid. repeat split; intros; by apply parse_node_colon.
Qed.

(** C7: when [parse_args] finds no subcommand, the script prints the help
    of the main parser and exits with status 1. *)
Theorem no_subcommand_exits_1 (argv : list string) (args : namespace) (out : list event) :
  parse_args argv = Some (Ret args, out) →
  comando args = None →
  main_body args = (Raise (SystemExit 1), [PrintHelp MainParser]) ∧
  script argv = Some (Raise (SystemExit 1), out ++ [PrintHelp MainParser]) ∧
  script_status argv = Some 1%Z.
Proof.
  intros Hparse Hnone.
  assert (no_comando args = true) as Hno by (unfold no_comando; by rewrite Hnone).
  pose proof (main_body_no_comando args Hno) as Hmain.
  assert (script argv = Some (Raise (SystemExit 1), out ++ [PrintHelp MainParser])) as Hs.
  { unfold script. rewrite Hparse. simpl. by rewrite Hmain. }
  repeat split; try done.
  unfold script_status. by rewrite Hs.
Qed.

(** ** Errors of the server and of the transport *)

Lemma not_200 (r : response) : status_code r ≠ 200%Z → (status_code r =? 200)%Z = false.
Proof. intros H. by apply Z.eqb_neq. Qed.

Lemma main_body_exit_0 (args : namespace) :
  no_comando args = false → exit_status (main_body args).1 = 0%Z.
Proof. intros H. by destruct (main_body_completes args H) as [out ->]. Qed.

(** C4: when the server answers with a status other than 200, each of the
    three operations prints, after the lines that announce the request, one
    error line made of the status code in decimal and the raw body, and
    returns without raising; the script then exits with status 0. *)
Theorem http_error_reported (resp : response) :
  status_code resp ≠ 200%Z →
  (∀ node_data app url,
     http (activate_request node_data app url) = inr resp →
     activar_nodos node_data app url =
       (Ret tt, activate_preamble node_data app url ++
                [Print ("❌ Error: " +:+ Str.of_Z (status_code resp) +:+ " - " +:+ text resp)])) ∧
  (∀ url,
     http (reset_request url) = inr resp →
     reiniciar url =
       (Ret tt, [Print ("Enviando petición a " +:+ url +:+ "/reset");
                 Print ("❌ Error: " +:+ Str.of_Z (status_code resp) +:+ " - " +:+ text resp)])) ∧
  (∀ url,
     http (status_request url) = inr resp →
     verificar_estado url =
       (Ret tt, [Print ("Enviando petición a " +:+ url +:+ "/status");
                 Print ("❌ Error: " +:+ Str.of_Z (status_code resp) +:+ " - " +:+ text resp)])) ∧
  (∀ args, no_comando args = false → exit_status (main_body args).1 = 0%Z).
Proof.
  intros Hcode%not_200. repeat split.
  - intros node_data app url Hreq.
    unfold activar_nodos, requests_post. unfold activate_request in Hreq.
    cbv zeta. rewrite Hreq. simpl. rewrite Hcode. done.
  - intros url Hreq.
    unfold reiniciar, requests_post. unfold reset_request in Hreq.
    cbv zeta. rewrite Hreq. simpl. rewrite Hcode. done.
  - intros url Hreq.
    unfold verificar_estado, requests_get. unfold status_request in Hreq.
    cbv zeta. rewrite Hreq. simpl. rewrite Hcode. done.
  - apply main_body_exit_0.
Qed.

(** C5: when the request raises an exception instead of giving a response,
    each of the three operations catches it, prints one line with the text
    of the exception and returns without raising; the script then exits
    with status 0. *)
Theorem transport_error_reported (e : exception) :
  (∀ node_data app url,
     http (activate_request node_data app url) = inl e →
     activar_nodos node_data app url =
       (Ret tt, activate_preamble node_data app url ++
                [Print ("❌ Error de conexión: " +:+ exc_str e)])) ∧
  (∀ url,
     http (reset_request url) = inl e →
     reiniciar url =
       (Ret tt, [Print ("Enviando petición a " +:+ url +:+ "/reset");
                 Print ("❌ Error de conexión: " +:+ exc_str e)])) ∧
  (∀ url,
     http (status_request url) = inl e →
     verificar_estado url =
       (Ret tt, [Print ("Enviando petición a " +:+ url +:+ "/status");
                 Print ("❌ Error de conexión: " +:+ exc_str e)])) ∧
  (∀ args, no_comando args = false → exit_status (main_body args).1 = 0%Z).
Proof.
  repeat split.
  - intros node_data app url Hreq.
    unfold activar_nodos, requests_post. unfold activate_request in Hreq.
    cbv zeta. by rewrite Hreq.
  - intros url Hreq.
    unfold reiniciar, requests_post. unfold reset_request in Hreq.
    cbv zeta. by rewrite Hreq.
  - intros url Hreq.
    unfold verificar_estado, requests_get. unfold status_request in Hreq.
    cbv zeta. by rewrite Hreq.
  - apply main_body_exit_0.
Qed.

(** ** The report of [activar_nodos] *)

Lemma eq_str_spec (s : string) (v : json) : eq_str s v = true ↔ v = JStr s.
Proof.
  destruct v; simpl; try (split; [done | congruence]).
  rewrite String.eqb_eq. split; congruence.
Qed.

Lemma active_id_spec (actives : list json) (id : string) :
  active_id actives id = true ↔ JStr id ∈ actives.
Proof.
  unfold active_id. rewrite existsb_exists. split.
  - intros (v & Hin & ->%eq_str_spec). by apply list_elem_of_In.
  - intros Hin. exists (JStr id). split; [by apply list_elem_of_In | by apply eq_str_spec].
Qed.

Lemma mark_loop (actives : list json) (nodes : list (string * string)) :
  for_each nodes (fun node =>
    marked ← py_contains node.1 (JList actives);
    print (node_line (if marked : bool then "➤" else " ") node))
  = (Ret tt, (fun n => Print (node_line (if active_id actives n.1 then "➤" else " ") n))
               <$> nodes).
Proof.
  induction nodes as [|n nodes IH]; [done|].
  cbn [for_each]. rewrite IH. done.
Qed.

Lemma print_loop {A : Type} (line : A → string) (xs : list A) :
  for_each xs (fun x => print (line x)) = (Ret tt, (fun x => Print (line x)) <$> xs).
Proof.
  induction xs as [|x xs IH]; simpl; [done|].
  unfold mbind, M_bind in *. rewrite IH. done.
Qed.

Lemma set_of_items_hashable (items : list json) (acc : gset string) :
  Forall (fun v => hashable v = true) items →
  ∃ ids : gset string,
    set_of_items items acc = ret ids ∧
    ∀ s, s ∈ ids ↔ s ∈ acc ∨ active_id items s = true.
Proof.
  intros Hall. revert acc. induction Hall as [|v items Hv _ IH]; intros acc; simpl.
  - exists acc. split; [done|]. intros s. unfold active_id. simpl.
    intuition congruence.
  - rewrite Hv.
    destruct (IH (match v with JStr s => acc ∪ {[s]} | _ => acc end)) as (ids & -> & Hids).
    exists ids. split; [done|]. intros s. rewrite Hids. unfold active_id. simpl.
    rewrite orb_true_iff.
    destruct v; simpl; try (intuition congruence).
    rewrite elem_of_union, elem_of_singleton, String.eqb_eq. intuition congruence.
Qed.

Lemma missing_filter (actives : list json) (requested activated : gset string)
    (nodes : list (string * string)) :
  (∀ s, s ∈ activated ↔ active_id actives s = true) →
  (∀ n, n ∈ nodes → n.1 ∈ requested) →
  filter (fun n => n.1 ∈ requested ∖ activated) nodes
  = filter (fun n => active_id actives n.1 = false) nodes.
Proof.
  intros Hact. induction nodes as [|n nodes IH]; intros Hreq; [done|].
  rewrite !filter_cons, IH by (intros; apply Hreq; by right).
  assert (n.1 ∈ requested) as Hn by (apply Hreq; by left).
  destruct (active_id actives n.1) eqn:Hid.
  - rewrite decide_False, decide_False; [done | done |].
    rewrite elem_of_difference, Hact. tauto.
  - rewrite decide_True, decide_True; [done | done |].
    rewrite elem_of_difference, Hact. split; [done | congruence].
Qed.

Lemma missing_nonempty (actives : list json) (activated : gset string)
    (nodes : list (string * string)) :
  (∀ s, s ∈ activated ↔ active_id actives s = true) →
  bool_decide ((list_to_set nodes.*1 : gset string) ∖ activated ≠ ∅)
  = nonempty (filter (fun n => active_id actives n.1 = false) nodes).
Proof.
  intros Hact.
  destruct (filter _ nodes) as [|m ms] eqn:Hf; simpl.
  - apply bool_decide_eq_false. intros Hne. apply Hne.
    apply set_eq. intros s. rewrite elem_of_difference, elem_of_list_to_set, Hact.
    split; [|set_solver]. intros [Hin Hno].
    apply list_elem_of_fmap in Hin as (n & -> & Hn).
    assert (n ∈ filter (fun n => active_id actives n.1 = false) nodes) as Hmem.
    { apply list_elem_of_filter. split; [|done]. by destruct (active_id actives n.1). }
    rewrite Hf in Hmem. by apply elem_of_nil in Hmem.
  - apply bool_decide_eq_true. intros Hempty.
    assert (m ∈ filter (fun n => active_id actives n.1 = false) nodes) as Hmem
      by (rewrite Hf; by left).
    apply list_elem_of_filter in Hmem as [Hm Hin].
    assert (m.1 ∈ (list_to_set nodes.*1 : gset string) ∖ activated) as Hdiff.
    { rewrite elem_of_difference, elem_of_list_to_set, Hact. split.
      - apply list_elem_of_fmap. by exists m.
      - congruence. }
    rewrite Hempty in Hdiff. by apply not_elem_of_empty in Hdiff.
Qed.

(** C1 (amended): when the server answers 200 with a JSON object whose
    [activeNodes] is a list that is not empty and holds no list or object,
    [activar_nodos] prints one line per requested node, in order, marked
    exactly when the id of the node is an item of [activeNodes], and then,
    when some requested id is not such an item, the warning followed by
    one line per requested node whose id is not; with all ids found it
    prints no warning.  When [activeNodes] is absent or empty, it prints
    neither the lines of the nodes nor a warning. *)
Theorem activation_report (node_data : list (string * string)) (app : bool)
    (url : string) (resp : response) (fields : list (string * json)) :
  http (activate_request node_data app url) = inr resp →
  status_code resp = 200%Z →
  json_body resp = inr (JDict fields) →
  (∀ actives,
     dict_lookup "activeNodes" fields = Some (JList actives) →
     actives ≠ [] →
     Forall (fun v => hashable v = true) actives →
     let missing := filter (fun n => active_id actives n.1 = false) node_data in
     activar_nodos node_data app url =
       (Ret tt,
        activate_preamble node_data app url ++
        [Print (Str.LF +:+ "✅ Nodos activados");
         Print ("Estado: " +:+ repr (JDict fields));
         Print (Str.LF +:+ "Nodos activos:")] ++
        ((fun n => Print (" " +:+ (if active_id actives n.1 then "➤" else " ") +:+ " "
                          +:+ n.1 +:+ " - " +:+ n.2))
           <$> node_data) ++
        (if nonempty missing
         then Print (Str.LF +:+ "⚠️ Advertencia: Algunos nodos solicitados no fueron activados:")
              :: ((fun n => Print ("  " +:+ n.1 +:+ " - " +:+ n.2)) <$> missing)
         else [])) ∧
     (∀ id, active_id actives id = true ↔ JStr id ∈ actives)) ∧
  (truthy (default JNull (dict_lookup "activeNodes" fields)) = false →
     activar_nodos node_data app url =
       (Ret tt,
        activate_preamble node_data app url ++
        [Print (Str.LF +:+ "✅ Nodos activados");
         Print ("Estado: " +:+ repr (JDict fields))])).
Proof.
  intros Hreq Hcode Hbody. unfold activate_request in Hreq.
  unfold activar_nodos, requests_post, response_json.
  cbv zeta. rewrite Hreq. cbn [of_reply]. run_prints.
  rewrite Hcode, Z.eqb_refl, Hbody. cbn [of_reply]. run_prints.
  cbn [py_get py_str]. run_prints. split.
  - intros actives Hfield Hne Hhash.
    split; [|apply active_id_spec].
    destruct (set_of_items_hashable actives ∅ Hhash) as (ids & Hset & Hids).
    assert (∀ s, s ∈ ids ↔ active_id actives s = true) as Hact.
    { intros s. rewrite Hids. split; [intros [[]%not_elem_of_empty|]; done | by right]. }
    rewrite Hfield. cbn [default from_option id].
    assert (truthy (JList actives) = true) as -> by (by destruct actives).
    run_prints. cbn [py_getitem]. rewrite Hfield. run_prints.
    rewrite mark_loop, bind_value. unfold py_set. cbn [py_iter]. run_prints.
    rewrite Hset. run_prints.
    rewrite (missing_nonempty actives ids node_data Hact).
    rewrite (missing_filter actives _ ids node_data Hact).
    2: { intros n Hn. apply elem_of_list_to_set, list_elem_of_fmap. by exists n. }
    rewrite print_loop. unfold activate_preamble, node_line, missing_line.
    destruct (nonempty (filter _ node_data)); unfold after, try_except, ret;
      cbn [fst snd]; rewrite <- ?app_assoc; try rewrite app_nil_r; reflexivity.
  - intros ->. unfold activate_preamble, after, try_except, ret. reflexivity.
Qed.

(** ** The report of [verificar_estado] *)

Lemma status_entry_ok (i : nat) (entry : json) :
  has_id entry = true →
  status_entry i entry = print (status_line i (shown_id entry) (shown_name entry)).
Proof.
  intros Hid. unfold status_entry.
  destruct entry; cbn [is_dict shown_id shown_name]; run_prints; try done.
  cbn [has_id] in Hid. cbn [py_getitem py_get].
  destruct (dict_lookup "id" fields); [|done]. by run_prints.
Qed.

Lemma status_entry_no_id (i : nat) (fields : list (string * json)) :
  dict_lookup "id" fields = None →
  status_entry i (JDict fields) = raise (Exc (Exception KeyError "'id'")).
Proof. intros Hid. unfold status_entry. cbn [is_dict py_getitem]. by rewrite Hid. Qed.

Lemma status_loop (i : nat) (entries : list json) :
  Forall (fun e => has_id e = true) entries →
  for_enumerate i entries status_entry =
    (Ret tt, imap (fun j e => Print (status_line (i + j) (shown_id e) (shown_name e)))
               entries).
Proof.
  intros Hall. revert i. induction Hall as [|e entries He _ IH]; intros i; [done|].
  cbn [for_enumerate imap]. rewrite (status_entry_ok i e He), bind_print, IH.
  unfold after. cbn [fst snd app]. rewrite Nat.add_0_r. do 2 f_equal.
  apply imap_ext. intros j x _. cbn. by rewrite Nat.add_succ_r.
Qed.

Lemma status_loop_stops (i : nat) (before after_ : list json)
    (bad : list (string * json)) :
  Forall (fun e => has_id e = true) before →
  dict_lookup "id" bad = None →
  for_enumerate i (before ++ JDict bad :: after_) status_entry =
    (Raise (Exc (Exception KeyError "'id'")),
     imap (fun j e => Print (status_line (i + j) (shown_id e) (shown_name e))) before).
Proof.
  intros Hall Hbad. revert i. induction Hall as [|e before He _ IH]; intros i.
  - cbn [app for_enumerate imap]. by rewrite (status_entry_no_id i bad Hbad).
  - cbn [app for_enumerate imap]. rewrite (status_entry_ok i e He), bind_print, IH.
    unfold after. cbn [fst snd app]. rewrite Nat.add_0_r. do 2 f_equal.
    apply imap_ext. intros j x _. cbn. by rewrite Nat.add_succ_r.
Qed.

Lemma status_200 (url : string) (resp : response) (fields : list (string * json)) :
  http (status_request url) = inr resp →
  status_code resp = 200%Z →
  json_body resp = inr (JDict fields) →
  verificar_estado url =
    after [Print ("Enviando petición a " +:+ url +:+ "/status");
           Print (Str.LF +:+ "✅ Estado actual:")]
      (try_except
         ((if truthy (default (JList []) (dict_lookup "activeNodes" fields))
           then n ← py_len (default (JList []) (dict_lookup "activeNodes" fields));
                print (Str.LF +:+ "Hay " +:+ Str.of_Z (Z.of_nat n) +:+ " nodos activos:");;
                items ← py_iter (default (JList []) (dict_lookup "activeNodes" fields));
                for_enumerate 0 items status_entry
           else print (Str.LF +:+ "No hay nodos activos actualmente"));;
          print (Str.LF +:+ "Respuesta completa:");;
          print (json_dumps true (JDict fields)))
         except_Exception (fun e => print (connection_error_line e))).
Proof.
  intros Hreq Hcode Hbody. unfold status_request in Hreq.
  unfold verificar_estado, requests_get, response_json.
  cbv zeta. rewrite Hreq. cbn [of_reply]. run_prints.
  rewrite Hcode, Z.eqb_refl, Hbody. cbn [of_reply]. run_prints.
  cbn [py_get]. run_prints. reflexivity.
Qed.

(** C8: when the server answers 200 with a JSON object to a status request,
    [verificar_estado] prints, for an [activeNodes] list that is not empty
    and whose entries are bare values or objects with an [id], their count
    and one line per entry numbered from 1, showing for a bare entry the
    entry and the placeholder name and for an object its [id] and its
    [name] or the placeholder when it has none; for an [activeNodes] that
    is absent or empty it prints that no node is active; in both cases the
    dump of the whole response follows. *)
Theorem status_report (url : string) (resp : response) (fields : list (string * json)) :
  http (status_request url) = inr resp →
  status_code resp = 200%Z →
  json_body resp = inr (JDict fields) →
  (∀ entries,
     dict_lookup "activeNodes" fields = Some (JList entries) →
     entries ≠ [] →
     Forall (fun e => has_id e = true) entries →
     verificar_estado url =
       (Ret tt,
        [Print ("Enviando petición a " +:+ url +:+ "/status");
         Print (Str.LF +:+ "✅ Estado actual:");
         Print (Str.LF +:+ "Hay " +:+ Str.of_Z (Z.of_nat (length entries))
                +:+ " nodos activos:")] ++
        imap (fun i e =>
                Print (" " +:+ Str.of_Z (Z.of_nat i + 1) +:+ ". " +:+ py_str (shown_id e)
                       +:+ " - " +:+ py_str (shown_name e))) entries ++
        [Print (Str.LF +:+ "Respuesta completa:");
         Print (json_dumps true (JDict fields))])) ∧
  (truthy (default (JList []) (dict_lookup "activeNodes" fields)) = false →
     verificar_estado url =
       (Ret tt,
        [Print ("Enviando petición a " +:+ url +:+ "/status");
         Print (Str.LF +:+ "✅ Estado actual:");
         Print (Str.LF +:+ "No hay nodos activos actualmente");
         Print (Str.LF +:+ "Respuesta completa:");
         Print (json_dumps true (JDict fields))])).
Proof.
  intros Hreq Hcode Hbody. rewrite (status_200 url resp fields Hreq Hcode Hbody).
  split.
  - intros entries Hfield Hne Hall. rewrite Hfield. cbn [default from_option id].
    assert (truthy (JList entries) = true) as -> by (by destruct entries).
    cbn [py_len py_iter]. run_prints.
    rewrite (status_loop 0 entries Hall), bind_value. run_prints.
    unfold after, try_except, print. cbn [fst snd].
    rewrite <- ?app_assoc. reflexivity.
  - intros ->. run_prints. unfold after, try_except, print. reflexivity.
Qed.

(** C10: when the server answers 200 to a status request and an entry of
    [activeNodes] is an object without [id], [verificar_estado] prints the
    count and the lines of the entries before it, then one connection-error
    line with the text of the [KeyError], and returns; no line of the
    entries after it and no dump of the response is printed. *)
Theorem status_entry_without_id (url : string) (resp : response)
    (fields : list (string * json)) (before after_ : list json)
    (bad : list (string * json)) :
  http (status_request url) = inr resp →
  status_code resp = 200%Z →
  json_body resp = inr (JDict fields) →
  dict_lookup "activeNodes" fields = Some (JList (before ++ JDict bad :: after_)) →
  Forall (fun e => has_id e = true) before →
  dict_lookup "id" bad = None →
  status_entry (length before) (JDict bad) = raise (Exc (Exception KeyError "'id'")) ∧
  verificar_estado url =
    (Ret tt,
     [Print ("Enviando petición a " +:+ url +:+ "/status");
      Print (Str.LF +:+ "✅ Estado actual:");
      Print (Str.LF +:+ "Hay "
             +:+ Str.of_Z (Z.of_nat (length (before ++ JDict bad :: after_)))
             +:+ " nodos activos:")] ++
     imap (fun i e =>
             Print (" " +:+ Str.of_Z (Z.of_nat i + 1) +:+ ". " +:+ py_str (shown_id e)
                    +:+ " - " +:+ py_str (shown_name e))) before ++
     [Print ("❌ Error de conexión: 'id'")]).
Proof.
  intros Hreq Hcode Hbody Hfield Hall Hbad.
  split; [by apply status_entry_no_id|].
  rewrite (status_200 url resp fields Hreq Hcode Hbody), Hfield.
  cbn [default from_option id].
  assert (truthy (JList (before ++ JDict bad :: after_)) = true) as ->
    by (by destruct before).
  cbn [py_len py_iter]. run_prints.
  rewrite (status_loop_stops 0 before after_ bad Hall Hbad).
  unfold after, try_except, print, mbind, M_bind, bind. cbn [fst snd].
  rewrite <- ?app_assoc. reflexivity.
Qed.

(** ** The command line *)

Lemma parse_outcome_ret {A : Type} (a : A) : parse_outcome (ret a).
Proof. left. by exists a. Qed.

Lemma parse_outcome_help {A : Type} (p : parser_id) : parse_outcome (help_exit p : M A).
Proof. right. left. by exists p. Qed.

Lemma parse_outcome_fail {A : Type} (p : parser_id) (why : usage_error) :
  parse_outcome (usage_fail p why : M A).
Proof. right. right. by exists p, why. Qed.

Lemma parse_outcome_bind {A B : Type} (m : M A) (k : A → M B) :
  parse_outcome m → (∀ a, parse_outcome (k a)) → parse_outcome (m ≫= k).
Proof.
  intros [[a ->]|[[p ->]|(p & why & ->)]] Hk.
  - rewrite bind_value. unfold after. specialize (Hk a).
    destruct Hk as [[b ->]|[[p ->]|(p & why & ->)]]; simpl.
    + apply parse_outcome_ret.
    + apply parse_outcome_help.
    + apply parse_outcome_fail.
  - apply parse_outcome_help.
  - apply parse_outcome_fail.
Qed.

#[local] Hint Resolve parse_outcome_ret parse_outcome_help parse_outcome_fail : core.

Lemma parse_outcome_options (p : parser_id) (gs : list (string * list string))
    (found : option (list string)) (app extras : bool) :
  parse_outcome (parse_options p gs found app extras).
Proof.
  revert found app extras.
  induction gs as [|[opt vals] gs IH]; intros found app extras;
    cbn [parse_options]; [auto|].
  destruct (one_of ["-h"; "--help"] opt); [auto|].
  destruct (is_activar p && one_of ["-n"; "--nodes"] opt); [by destruct vals|].
  by destruct (is_activar p && one_of ["-a"; "--append"] opt).
Qed.

Lemma parse_outcome_subcommand (p : parser_id) (argv : list string) :
  parse_outcome (parse_subcommand p argv).
Proof.
  unfold parse_subcommand. destruct (groups argv) as [lead gs].
  apply parse_outcome_bind; [apply parse_outcome_options|].
  intros [[found app] extras]. destruct found; [auto|]. by destruct (is_activar p).
Qed.

Lemma parse_outcome_finish (args : namespace) (extras : bool) :
  parse_outcome (finish_parse args extras).
Proof. unfold finish_parse. by destruct extras. Qed.

Lemma parse_outcome_main (argv : list string) (url : string) (extras : bool) :
  parse_outcome (parse_main argv url extras).
Proof.
  remember (length argv) as n eqn:Hn. revert argv url extras Hn.
  induction n as [n IH] using lt_wf_ind. intros argv url extras ->.
  destruct argv as [|arg rest]; cbn [parse_main]; [apply parse_outcome_finish|].
  destruct (one_of ["-h"; "--help"] arg); [auto|].
  destruct (one_of ["-s"; "--server"] arg).
  { destruct rest as [|value rest]; [auto|].
    destruct (is_option value); [auto|].
    eapply IH; [|done]. simpl. lia. }
  destruct (is_option arg).
  { eapply IH; [|done]. simpl. lia. }
  destruct (subparser_of arg) as [p|]; [|auto].
  apply parse_outcome_bind; [apply parse_outcome_subcommand|].
  intros [[vals app] extras']. apply parse_outcome_finish.
Qed.

Lemma groups_options (argv : list string) :
  Forall (fun g => g.1 ∈ argv) (groups argv).2.
Proof.
  induction argv as [|arg argv IH]; simpl; [constructor|].
  unfold group_step. destruct (groups argv) as [lead gs]. simpl in IH.
  destruct (is_option arg); simpl.
  - constructor; [by left|]. eapply Forall_impl; [exact IH|]. intros g Hg. by right.
  - eapply Forall_impl; [exact IH|]. intros g Hg. by right.
Qed.

Lemma one_of_false (names : list string) (arg : string) :
  (∀ o, o ∈ names → o ≠ arg) → one_of names arg = false.
Proof.
  intros Hno. unfold one_of. apply not_true_is_false.
  intros (o & Hin & Heq%String.eqb_eq)%existsb_exists.
  apply (Hno o); [by apply list_elem_of_In | done].
Qed.

Lemma parse_options_plain (gs : list (string * list string))
    (found : option (list string)) (app extras : bool) :
  Forall (fun g => one_of ["-h"; "--help"] g.1 = false ∧
                   one_of ["-n"; "--nodes"] g.1 = false) gs →
  ∃ app' extras',
    parse_options ActivarParser gs found app extras = ret (found, app', extras').
Proof.
  intros Hall. revert app extras.
  induction Hall as [|[opt vals] gs [Hh Hn] _ IH]; intros app extras;
    cbn [parse_options].
  - by exists app, extras.
  - cbn [fst] in Hh, Hn. rewrite Hh, Hn. cbn [is_activar andb].
    destruct (one_of ["-a"; "--append"] opt); apply IH.
Qed.

Lemma parse_activar_without_nodes (rest : list string) :
  (∀ o, o ∈ ["-h"; "--help"; "-n"; "--nodes"] → o ∉ rest) →
  parse_subcommand ActivarParser rest = usage_fail ActivarParser MissingRequired.
Proof.
  intros Hno. unfold parse_subcommand.
  pose proof (groups_options rest) as Hgs.
  destruct (groups rest) as [lead gs]. simpl in Hgs.
  destruct (parse_options_plain gs None false (nonempty lead)) as (app' & extras' & ->).
  { eapply Forall_impl; [exact Hgs|]. intros [opt vals] Hin. cbn [fst] in *.
    split; apply one_of_false; intros o Ho <-; apply (Hno o); try done.
    all: apply list_elem_of_In; apply list_elem_of_In in Ho; simpl in *; tauto. }
  by rewrite bind_ret.
Qed.

Lemma parse_args_outcome (argv : list string) (parsed : M namespace) :
  parse_args argv = Some parsed → parse_outcome parsed.
Proof.
  unfold parse_args. destruct (modelled argv); [|done].
  intros [= <-]. apply parse_outcome_main.
Qed.

(** C6 (amended): every error [argparse] reports ends the script at once
    with exit status 2; in particular [activar] without its required
    [--nodes] option is refused by the parser of [activar] with status 2.
    Exit status 1 only ever comes from a command line without subcommand. *)
Theorem argument_errors_exit_2 :
  (∀ rest,
     modelled rest = true →
     (∀ o, o ∈ ["-h"; "--help"; "-n"; "--nodes"] → o ∉ rest) →
     script ("activar" :: rest)
       = Some (Raise (SystemExit 2), [UsageError ActivarParser MissingRequired]) ∧
     script_status ("activar" :: rest) = Some 2%Z) ∧
  (∀ argv r out p why,
     parse_args argv = Some (r, out) →
     UsageError p why ∈ out →
     script argv = Some (Raise (SystemExit 2), out) ∧
     script_status argv = Some 2%Z) ∧
  (∀ argv,
     script_status argv = Some 1%Z →
     ∃ args, parse_args argv = Some (ret args) ∧ no_comando args = true).
Proof.
  split; [|split].
  - intros rest Hmod Hno.
    assert (script ("activar" :: rest)
            = Some (Raise (SystemExit 2), [UsageError ActivarParser MissingRequired])) as Hs.
    { unfold script, parse_args.
      change (modelled ("activar" :: rest)) with (modelled rest). rewrite Hmod.
      cbn [parse_main].
      change (one_of ["-h"; "--help"] "activar") with false.
      change (one_of ["-s"; "--server"] "activar") with false.
      change (is_option "activar") with false.
      change (subparser_of "activar") with (Some ActivarParser).
      cbv iota. by rewrite (parse_activar_without_nodes rest Hno). }
    split; [done|]. unfold script_status. by rewrite Hs.
  - intros argv r out p why Hparse Hin.
    assert (script argv = Some (Raise (SystemExit 2), out)) as Hs.
    { unfold script. rewrite Hparse.
      destruct (parse_args_outcome argv _ Hparse)
        as [[a [= -> ->]]|[[q [= -> ->]]|(q & why' & [= -> ->])]].
      - by apply elem_of_nil in Hin.
      - apply list_elem_of_singleton in Hin. done.
      - done. }
    split; [done|]. unfold script_status. by rewrite Hs.
  - intros argv. unfold script_status, script.
    destruct (parse_args argv) as [parsed|] eqn:Hparse; [|done].
    destruct (parse_args_outcome argv _ Hparse)
      as [[args ->]|[[q ->]|(q & why' & ->)]]; [|done|done].
    rewrite bind_value. unfold after. cbn [fmap option_fmap option_map fst].
    intros [= Hst]. exists args. split; [done|].
    destruct (no_comando args) eqn:Hno; [done|].
    rewrite (main_body_exit_0 args Hno) in Hst. done.
Qed.

(** ** Further properties of the operations *)

(** X1: whatever the server does (any response, any exception of the
    request, any decoded body), each of the three operations returns
    normally: no exception leaves [activar_nodos], [reiniciar] or
    [verificar_estado]. *)
Theorem operations_never_raise (node_data : list (string * string)) (app : bool)
    (url : string) :
  completes (activar_nodos node_data app url) ∧
  completes (reiniciar url) ∧
  completes (verificar_estado url).
Proof.
  split; [apply activar_nodos_completes|].
  split; [apply reiniciar_completes | apply verificar_estado_completes].
Qed.

(** X2: a 200 answer to the reset request is confirmed whatever its body
    is: [reiniciar] never decodes the body. *)
Theorem reset_confirmed (url : string) (resp : response) :
  http (reset_request url) = inr resp →
  status_code resp = 200%Z →
  reiniciar url =
    (Ret tt, [Print ("Enviando petición a " +:+ url +:+ "/reset");
              Print (Str.LF +:+ "✅ Visualización reiniciada")]).
Proof.
  intros Hreq Hcode. unfold reset_request in Hreq.
  unfold reiniciar, requests_post. cbv zeta. rewrite Hreq. cbn [of_reply].
  run_prints. rewrite Hcode, Z.eqb_refl. reflexivity.
Qed.

(** X3: a 200 answer whose body is not JSON makes [response.json()] raise;
    [activar_nodos] and [verificar_estado] report the exception as a
    connection error and print neither a success line nor a report. *)
Theorem undecodable_body_reported (resp : response) (e : exception) :
  status_code resp = 200%Z →
  json_body resp = inl e →
  (∀ node_data app url,
     http (activate_request node_data app url) = inr resp →
     activar_nodos node_data app url =
       (Ret tt, activate_preamble node_data app url ++
                [Print ("❌ Error de conexión: " +:+ exc_str e)])) ∧
  (∀ url,
     http (status_request url) = inr resp →
     verificar_estado url =
       (Ret tt, [Print ("Enviando petición a " +:+ url +:+ "/status");
                 Print ("❌ Error de conexión: " +:+ exc_str e)])).
Proof.
  intros Hcode Hbody. split.
  - intros node_data app url Hreq. unfold activate_request in Hreq.
    unfold activar_nodos, requests_post, response_json.
    cbv zeta. rewrite Hreq. cbn [of_reply]. run_prints.
    rewrite Hcode, Z.eqb_refl, Hbody. reflexivity.
  - intros url Hreq. unfold status_request in Hreq.
    unfold verificar_estado, requests_get, response_json.
    cbv zeta. rewrite Hreq. cbn [of_reply]. run_prints.
    rewrite Hcode, Z.eqb_refl, Hbody. reflexivity.
Qed.


(** ** The report of [activar_nodos] for other shapes of [activeNodes] *)

Lemma activation_found (node_data : list (string * string)) (app : bool)
    (url : string) (resp : response) (fields : list (string * json)) (v : json) :
  http (activate_request node_data app url) = inr resp →
  status_code resp = 200%Z →
  json_body resp = inr (JDict fields) →
  dict_lookup "activeNodes" fields = Some v →
  truthy v = true →
  activar_nodos node_data app url =
    after (activate_heading node_data app url (JDict fields))
      (try_except (report_nodes node_data v)
         except_Exception (fun e => print (connection_error_line e))).
Proof.
  intros Hreq Hcode Hbody Hfield Htrue. unfold activate_request in Hreq.
  unfold activar_nodos, requests_post, response_json.
  cbv zeta. rewrite Hreq. cbn [of_reply]. run_prints.
  rewrite Hcode, Z.eqb_refl, Hbody. cbn [of_reply]. run_prints.
  cbn [py_get]. rewrite Hfield. cbn [default from_option id]. run_prints.
  rewrite Htrue. run_prints. cbn [py_getitem]. rewrite Hfield. run_prints.
  unfold activate_heading, activate_preamble, report_nodes.
  rewrite <- ?app_assoc. reflexivity.
Qed.

Lemma mark_loop_with (v : json) (marked : string → bool)
    (nodes : list (string * string)) :
  (∀ s, py_contains s v = ret (marked s)) →
  for_each nodes (fun node =>
    m ← py_contains node.1 v;
    print (node_line (if m : bool then "➤" else " ") node))
  = (Ret tt, (fun n => Print (node_line (if marked n.1 then "➤" else " ") n)) <$> nodes).
Proof.
  intros Hin. induction nodes as [|n nodes IH]; [done|].
  cbn [for_each]. rewrite IH, Hin. done.
Qed.

Lemma missing_filter_with (listed : string → bool) (requested ids : gset string)
    (nodes : list (string * string)) :
  (∀ s, s ∈ ids ↔ listed s = true) →
  (∀ n, n ∈ nodes → n.1 ∈ requested) →
  filter (fun n => n.1 ∈ requested ∖ ids) nodes
  = filter (fun n => listed n.1 = false) nodes.
Proof.
  intros Hids. induction nodes as [|n nodes IH]; intros Hreq; [done|].
  rewrite !filter_cons, IH by (intros; apply Hreq; by right).
  assert (n.1 ∈ requested) as Hn by (apply Hreq; by left).
  destruct (listed n.1) eqn:Hl.
  - rewrite decide_False, decide_False; [done | done |].
    rewrite elem_of_difference, Hids. tauto.
  - rewrite decide_True, decide_True; [done | done |].
    rewrite elem_of_difference, Hids. split; [done | congruence].
Qed.

Lemma missing_nonempty_with (listed : string → bool) (ids : gset string)
    (nodes : list (string * string)) :
  (∀ s, s ∈ ids ↔ listed s = true) →
  bool_decide ((list_to_set nodes.*1 : gset string) ∖ ids ≠ ∅)
  = nonempty (filter (fun n => listed n.1 = false) nodes).
Proof.
  intros Hids.
  destruct (filter _ nodes) as [|m ms] eqn:Hf; simpl.
  - apply bool_decide_eq_false. intros Hne. apply Hne.
    apply set_eq. intros s. rewrite elem_of_difference, elem_of_list_to_set, Hids.
    split; [|by intros ?%not_elem_of_empty]. intros [Hin Hno].
    apply list_elem_of_fmap in Hin as (n & -> & Hn).
    assert (n ∈ filter (fun n => listed n.1 = false) nodes) as Hmem.
    { apply list_elem_of_filter. split; [|done]. by destruct (listed n.1). }
    rewrite Hf in Hmem. by apply elem_of_nil in Hmem.
  - apply bool_decide_eq_true. intros Hempty.
    assert (m ∈ filter (fun n => listed n.1 = false) nodes) as Hmem
      by (rewrite Hf; by left).
    apply list_elem_of_filter in Hmem as [Hm Hin].
    assert (m.1 ∈ (list_to_set nodes.*1 : gset string) ∖ ids) as Hdiff.
    { rewrite elem_of_difference, elem_of_list_to_set, Hids. split.
      - apply list_elem_of_fmap. by exists m.
      - congruence. }
    rewrite Hempty in Hdiff. by apply not_elem_of_empty in Hdiff.
Qed.

Lemma report_nodes_with (v : json) (marked listed : string → bool) (ids : gset string)
    (nodes : list (string * string)) :
  (∀ s, py_contains s v = ret (marked s)) →
  py_set v = ret ids →
  (∀ s, s ∈ ids ↔ listed s = true) →
  report_nodes nodes v = (Ret tt, expected_report marked listed nodes).
Proof.
  intros Hin Hset Hids. unfold report_nodes.
  rewrite (mark_loop_with v marked nodes Hin), bind_value, Hset. run_prints.
  cbv zeta.
  rewrite (missing_nonempty_with listed ids nodes Hids).
  rewrite (missing_filter_with listed _ ids nodes Hids).
  2: { intros n Hn. apply elem_of_list_to_set, list_elem_of_fmap. by exists n. }
  unfold expected_report, node_line, missing_line. cbv zeta.
  destruct (nonempty (filter _ nodes)).
  - run_prints. rewrite print_loop. unfold after. cbn [fst snd].
    rewrite <- ?app_assoc. reflexivity.
  - unfold after, ret. cbn [fst snd]. reflexivity.
Qed.

Lemma active_id_strs (names : list string) (s : string) :
  active_id (JStr <$> names) s = one_of names s.
Proof.
  unfold active_id, one_of. induction names as [|x names IH]; [done|].
  cbn [fmap list_fmap existsb eq_str] in *. by rewrite IH.
Qed.

Lemma strs_hashable (names : list string) :
  Forall (fun v => hashable v = true) (JStr <$> names).
Proof. induction names; by constructor. Qed.

Lemma set_of_strs (names : list string) :
  ∃ ids : gset string,
    set_of_items (JStr <$> names) ∅ = ret ids ∧
    ∀ s, s ∈ ids ↔ one_of names s = true.
Proof.
  destruct (set_of_items_hashable (JStr <$> names) ∅ (strs_hashable names))
    as (ids & Hset & Hids).
  exists ids. split; [done|]. intros s. rewrite Hids, active_id_strs.
  split; [intros [[]%not_elem_of_empty|]; done | by right].
Qed.

Lemma keys_one_of (kvs : list (string * json)) (s : string) :
  existsb (fun kv => String.eqb s kv.1) kvs = one_of kvs.*1 s.
Proof.
  unfold one_of. induction kvs as [|kv kvs IH]; [done|].
  cbn [fmap list_fmap existsb] in *. by rewrite IH.
Qed.

(** X5: when [activeNodes] of a 200 answer is an object instead of a list,
    [activar_nodos] treats it as the list of its keys: a requested node is
    marked exactly when its id is a key, and listed under the warning
    exactly when it is not. *)
Theorem active_object_as_keys (node_data : list (string * string)) (app : bool)
    (url : string) (resp : response) (fields kvs : list (string * json)) :
  http (activate_request node_data app url) = inr resp →
  status_code resp = 200%Z →
  json_body resp = inr (JDict fields) →
  dict_lookup "activeNodes" fields = Some (JDict kvs) →
  kvs ≠ [] →
  activar_nodos node_data app url =
    (Ret tt,
     activate_heading node_data app url (JDict fields) ++
     expected_report (one_of kvs.*1) (one_of kvs.*1) node_data).
Proof.
  intros Hreq Hcode Hbody Hfield Hne.
  rewrite (activation_found _ _ _ _ _ _ Hreq Hcode Hbody Hfield)
    by (by destruct kvs).
  destruct (set_of_strs kvs.*1) as (ids & Hset & Hids).
  rewrite (report_nodes_with (JDict kvs) (one_of kvs.*1) (one_of kvs.*1) ids).
  - reflexivity.
  - intros s. cbn [py_contains]. by rewrite keys_one_of.
  - unfold py_set. cbn [py_iter]. by rewrite bind_ret.
  - exact Hids.
Qed.



Lemma set_of_items_stops (before rest : list json) (bad : json) (acc : gset string) :
  Forall (fun v => hashable v = true) before →
  hashable bad = false →
  set_of_items (before ++ bad :: rest) acc
  = type_error ("unhashable type: " +:+ quoted (type_name bad)).
Proof.
  intros Hall Hbad. revert acc.
  induction Hall as [|v before Hv _ IH]; intros acc; cbn [app set_of_items].
  - by rewrite Hbad.
  - rewrite Hv. apply IH.
Qed.

(** X7: when the [activeNodes] list of a 200 answer holds a list or an
    object, [activar_nodos] still prints the line of every requested node
    with its mark, then fails on building the set of activated ids: it
    prints a connection error and no warning, whatever is missing. *)
Theorem unhashable_active_entry (node_data : list (string * string)) (app : bool)
    (url : string) (resp : response) (fields : list (string * json))
    (before rest : list json) (bad : json) :
  http (activate_request node_data app url) = inr resp →
  status_code resp = 200%Z →
  json_body resp = inr (JDict fields) →
  dict_lookup "activeNodes" fields = Some (JList (before ++ bad :: rest)) →
  Forall (fun v => hashable v = true) before →
  hashable bad = false →
  ∃ msg,
    activar_nodos node_data app url =
      (Ret tt,
       activate_heading node_data app url (JDict fields) ++
       ((fun n => Print (" " +:+ (if active_id (before ++ bad :: rest) n.1
                                  then "➤" else " ")
                         +:+ " " +:+ n.1 +:+ " - " +:+ n.2)) <$> node_data) ++
       [Print ("❌ Error de conexión: " +:+ msg)]).
Proof.
  intros Hreq Hcode Hbody Hfield Hall Hbad.
  exists ("unhashable type: " +:+ quoted (type_name bad)).
  rewrite (activation_found _ _ _ _ _ _ Hreq Hcode Hbody Hfield)
    by (by destruct before).
  unfold report_nodes. rewrite mark_loop, bind_value. unfold py_set.
  cbn [py_iter]. rewrite bind_ret, (set_of_items_stops before rest bad ∅ Hall Hbad).
  unfold node_line, after, try_except, type_error, raise, mbind, M_bind, bind.
  cbn [fst snd except_Exception print connection_error_line exc_str].
  rewrite <- ?app_assoc, ?app_nil_r. reflexivity.
Qed.

(** X8: when [activeNodes] of a 200 answer is a number other than zero or
    [true], neither operation can go through it: [activar_nodos] prints
    the heading of its report and then a connection error, with no node
    line and no warning; [verificar_estado] prints a connection error in
    the place of the count, the entries and the dump. *)
Theorem scalar_active_nodes (resp : response) (fields : list (string * json))
    (v : json) :
  status_code resp = 200%Z →
  json_body resp = inr (JDict fields) →
  dict_lookup "activeNodes" fields = Some v →
  is_scalar v = true →
  truthy v = true →
  (∀ node_data app url,
     http (activate_request node_data app url) = inr resp →
     ∃ msg,
       activar_nodos node_data app url =
         (Ret tt, activate_heading node_data app url (JDict fields) ++
                  [Print ("❌ Error de conexión: " +:+ msg)])) ∧
  (∀ url,
     http (status_request url) = inr resp →
     ∃ msg,
       verificar_estado url =
         (Ret tt, [Print ("Enviando petición a " +:+ url +:+ "/status");
                   Print (Str.LF +:+ "✅ Estado actual:");
                   Print ("❌ Error de conexión: " +:+ msg)])).
Proof.
  intros Hcode Hbody Hfield Hscalar Htrue. split.
  - intros node_data app url Hreq.
    rewrite (activation_found _ _ _ _ _ _ Hreq Hcode Hbody Hfield Htrue).
    unfold report_nodes, py_set.
    destruct node_data as [|n nodes];
      destruct v; try discriminate Hscalar; try discriminate Htrue;
      eexists; cbn; rewrite ?app_nil_r; reflexivity.
  - intros url Hreq.
    rewrite (status_200 url resp fields Hreq Hcode Hbody), Hfield.
    cbn [default from_option id]. rewrite Htrue.
    destruct v; try discriminate Hscalar; try discriminate Htrue;
      eexists; reflexivity.
Qed.

(** ** Further properties of the script *)

(** X9: the id [parse_node] gives never holds a colon, and the pair keeps
    the whole token: a token with a colon is its id, a colon and its name,
    and a token without colon is its id. *)
Theorem parse_node_round_trip (node_str id name : string) :
  parse_node node_str = ret (id, name) →
  Str.has_char ":" id = false ∧
  (Str.has_char ":" node_str = true → node_str = id +:+ ":" +:+ name) ∧
  (Str.has_char ":" node_str = false →
     node_str = id ∧ name = "Neuron " +:+ node_str).
Proof.
  intros Hparse. destruct (Str.has_char ":" node_str) eqn:Hc.
  - destruct (has_char_cut _ _ Hc) as (a & b & -> & Ha).
    rewrite (parse_node_colon a b Ha) in Hparse.
    injection Hparse as <- <-. done.
  - rewrite (parse_node_plain node_str Hc) in Hparse.
    injection Hparse as <- <-. done.
Qed.

(** X10: in the branch of the script for [activar], an exception of the
    request is reported as a connection error also when it is a
    [ValueError] (as for a URL without scheme): the handler of the script
    for [ValueError], which would report a node format error and exit with
    status 1, does not see it. *)
Theorem request_error_in_activar_branch (strs : list string) (app : bool)
    (url : string) (e : exception) (node_data : list (string * string)) :
  Forall2 (fun s p => parse_node s = ret p) strs node_data →
  http (activate_request node_data app url) = inl e →
  activar_branch strs app url =
    (Ret tt, activate_preamble node_data app url ++
             [Print ("❌ Error de conexión: " +:+ exc_str e)]).
Proof.
  intros Hall Hreq.
  destruct (activar_branch_eq strs app url) as (node_data' & Hall' & ->).
  assert (node_data' = node_data) as ->.
  { clear Hreq. revert node_data' Hall'.
    induction Hall as [|s p strs nd Hp _ IH]; intros nd' Hall';
      inversion Hall' as [|s' p' strs' nd'' Hp' Hrest]; subst; [done|].
    rewrite Hp in Hp'. injection Hp' as <-. f_equal. by apply IH. }
  unfold activate_request in Hreq. unfold activar_nodos, requests_post.
  cbv zeta. by rewrite Hreq.
Qed.

Lemma script_status_of_parse (argv : list string) :
  script_status argv = status_of_parse <$> parse_args argv.
Proof.
  unfold script_status, script.
  destruct (parse_args argv) as [parsed|] eqn:Hparse; [|done].
  cbn [fmap option_fmap option_map]. f_equal.
  destruct (parse_args_outcome argv _ Hparse)
    as [[args ->]|[[q ->]|(q & why & ->)]]; [|done|done].
  rewrite bind_value. unfold after, status_of_parse. cbn [fst].
  destruct (no_comando args) eqn:Hno.
  - by rewrite (main_body_no_comando args Hno).
  - by rewrite (main_body_exit_0 args Hno).
Qed.

Lemma status_of_parse_range (argv : list string) (parsed : M namespace) :
  parse_args argv = Some parsed →
  status_of_parse parsed = 0%Z ∨ status_of_parse parsed = 1%Z ∨
  status_of_parse parsed = 2%Z.
Proof.
  intros Hparse.
  destruct (parse_args_outcome argv _ Hparse)
    as [[args ->]|[[q ->]|(q & why & ->)]]; unfold status_of_parse; cbn.
  - destruct (no_comando args); auto.
  - auto.
  - auto.
Qed.

Lemma one_of_two (a b x : string) : one_of [a; b] x = true → x = a ∨ x = b.
Proof.
  unfold one_of. cbn [existsb]. rewrite orb_false_r, orb_true_iff, !String.eqb_eq.
  tauto.
Qed.

Lemma groups_values (vals l : list string) :
  Forall (fun t => is_option t = false) vals →
  groups (vals ++ l) = (vals ++ (groups l).1, (groups l).2).
Proof.
  intros Hall. induction Hall as [|v vals Hv _ IH]; cbn [Datatypes.app].
  - by destruct (groups l).
  - unfold groups in *. cbn [foldr]. rewrite IH. unfold group_step. by rewrite Hv.
Qed.

Lemma modelled_values (vals : list string) :
  Forall (fun t => is_option t = false) vals → modelled vals = true.
Proof.
  intros Hall. unfold modelled. apply forallb_forall. intros t Hin.
  apply list_elem_of_In in Hin. rewrite Forall_forall in Hall.
  by rewrite (Hall t Hin).
Qed.

Lemma modelled_app (l1 l2 : list string) :
  modelled (l1 ++ l2) = modelled l1 && modelled l2.
Proof. apply forallb_app. Qed.

Lemma parse_main_server (so url : string) (rest : list string) (old : string)
    (extras : bool) :
  so = "-s" ∨ so = "--server" →
  is_option url = false →
  parse_main (so :: url :: rest) old extras = parse_main rest url extras.
Proof. intros [-> | ->] Hurl; cbn [parse_main]; by rewrite Hurl. Qed.

Lemma parse_main_subcommand (name : string) (p : parser_id) (rest : list string)
    (url : string) (extras : bool) :
  subparser_of name = Some p →
  parse_main (name :: rest) url extras =
    ('(vals, app, extras') ← parse_subcommand p rest;
     finish_parse (Namespace url (Some name) vals app) (extras || extras')).
Proof.
  intros Hp. unfold subparser_of in Hp.
  destruct (String.eqb_spec name "activar") as [->|_]; [by injection Hp as <-|].
  destruct (String.eqb_spec name "reiniciar") as [->|_]; [by injection Hp as <-|].
  destruct (String.eqb_spec name "estado") as [->|_]; [by injection Hp as <-|].
  done.
Qed.

Lemma parse_activar_nodes (no ao : string) (toks : list string) (app : bool) :
  no = "-n" ∨ no = "--nodes" →
  ao = "-a" ∨ ao = "--append" →
  toks ≠ [] →
  Forall (fun t => is_option t = false) toks →
  parse_subcommand ActivarParser (no :: toks ++ (if app then [ao] else []))
  = ret (toks, app, false).
Proof.
  intros Hno Hao Hne Hall. unfold parse_subcommand.
  assert (groups (no :: toks ++ (if app then [ao] else []))
          = ([], (no, toks) :: (if app then [(ao, [])] else []))) as ->.
  { change (no :: toks ++ (if app then [ao] else []))
      with ([no] ++ toks ++ (if app then [ao] else [])).
    unfold groups at 1. cbn [Datatypes.app foldr]. fold (groups (toks ++ (if app then [ao] else []))).
    rewrite (groups_values toks _ Hall).
    destruct Hno as [-> | ->], Hao as [-> | ->], app; cbn; by rewrite ?app_nil_r. }
  destruct toks as [|t toks]; [done|].
  destruct Hno as [-> | ->], Hao as [-> | ->], app; reflexivity.
Qed.

Lemma main_body_comando (args : namespace) (name : string) :
  comando args = Some name →
  name ≠ EmptyString →
  main_body args =
    (if String.eqb name "activar"
     then activar_branch (nodes args) (append args) (server args)
     else if String.eqb name "reiniciar" then reiniciar (server args)
     else if String.eqb name "estado" then verificar_estado (server args)
     else print_help).
Proof.
  intros Hc Hne. unfold main_body, no_comando, comando_is. rewrite Hc.
  destruct (String.eqb_spec name EmptyString); [done|]. by rewrite bind_ret.
Qed.

(** X12: a command line that names [activar] with its node tokens, with or
    without a server and the append flag, in the long or the short
    spelling, is accepted, and the script runs [activar_nodos] on the
    pairs parsed from the tokens, in their order, with that flag, on the
    given server or else the default one. *)
Theorem script_runs_activar (so no ao : string) (custom : option string)
    (toks : list string) (app : bool) :
  one_of ["-s"; "--server"] so = true →
  one_of ["-n"; "--nodes"] no = true →
  one_of ["-a"; "--append"] ao = true →
  (∀ url, custom = Some url → is_option url = false) →
  toks ≠ [] →
  Forall (fun t => is_option t = false) toks →
  ∃ node_data,
    Forall2 (fun s p => parse_node s = ret p) toks node_data ∧
    script (server_args so custom ++ ["activar"; no] ++ toks
            ++ (if app then [ao] else []))
    = Some (activar_nodos node_data app (default DEFAULT_SERVER_URL custom)).
Proof.
  intros Hso%one_of_two Hno%one_of_two Hao%one_of_two Hurl Hne Hall.
  destruct (activar_branch_eq toks app (default DEFAULT_SERVER_URL custom))
    as (node_data & Hparse & Hbranch).
  exists node_data. split; [done|]. rewrite <- Hbranch.
  assert (modelled (server_args so custom ++ ["activar"; no] ++ toks
                    ++ (if app then [ao] else [])) = true) as Hmod.
  { rewrite !modelled_app, (modelled_values toks Hall).
    destruct custom as [url|]; cbn [server_args].
    - unfold modelled at 1. cbn [forallb]. rewrite (Hurl url eq_refl).
      destruct Hso as [-> | ->], Hno as [-> | ->], Hao as [-> | ->], app; reflexivity.
    - destruct Hno as [-> | ->], Hao as [-> | ->], app; reflexivity. }
  unfold script, parse_args. rewrite Hmod. f_equal.
  assert (parse_main (server_args so custom ++ ["activar"; no] ++ toks
                      ++ (if app then [ao] else [])) DEFAULT_SERVER_URL false
          = ret (Namespace (default DEFAULT_SERVER_URL custom) (Some "activar") toks app))
    as ->.
  { assert (∀ url, parse_main (["activar"; no] ++ toks ++ (if app then [ao] else []))
                     url false
                   = ret (Namespace url (Some "activar") toks app)) as Hsub.
    { intros url. cbn [Datatypes.app]. rewrite (parse_main_subcommand _ ActivarParser) by done.
      rewrite (parse_activar_nodes no ao toks app Hno Hao Hne Hall).
      by rewrite bind_ret. }
    destruct custom as [url|]; cbn [server_args default from_option id Datatypes.app].
    - rewrite (parse_main_server so url _ _ _ Hso (Hurl url eq_refl)). apply Hsub.
    - apply Hsub. }
  rewrite bind_ret. by rewrite (main_body_comando _ "activar").
Qed.

Lemma parse_simple (p : parser_id) :
  is_activar p = false → parse_subcommand p [] = ret ([], false, false).
Proof. intros Hp. unfold parse_subcommand. cbn. by rewrite Hp. Qed.

(** X13: the command lines [reiniciar] and [estado], with or without a
    server, are accepted, and the script runs [reiniciar] and
    [verificar_estado] on the given server or else the default one. *)
Theorem script_runs_simple (so : string) (custom : option string) :
  one_of ["-s"; "--server"] so = true →
  (∀ url, custom = Some url → is_option url = false) →
  script (server_args so custom ++ ["reiniciar"])
    = Some (reiniciar (default DEFAULT_SERVER_URL custom)) ∧
  script (server_args so custom ++ ["estado"])
    = Some (verificar_estado (default DEFAULT_SERVER_URL custom)).
Proof.
  intros Hso%one_of_two Hurl.
  assert (∀ name p, subparser_of name = Some p → is_activar p = false →
            is_option name = false →
            script (server_args so custom ++ [name])
            = Some (main_body (Namespace (default DEFAULT_SERVER_URL custom)
                                 (Some name) [] false))) as Hrun.
  { intros name p Hp Hsimple Hname.
    assert (modelled (server_args so custom ++ [name]) = true) as Hmod.
    { rewrite modelled_app. unfold modelled at 2. cbn [forallb]. rewrite Hname.
      destruct custom as [url|]; cbn [server_args]; [|reflexivity].
      unfold modelled. cbn [forallb]. rewrite (Hurl url eq_refl).
      destruct Hso as [-> | ->]; reflexivity. }
    unfold script, parse_args. rewrite Hmod. f_equal.
    assert (∀ url, parse_main [name] url false
                   = ret (Namespace url (Some name) [] false)) as Hsub.
    { intros url. rewrite (parse_main_subcommand _ p) by done.
      rewrite (parse_simple p Hsimple). by rewrite bind_ret. }
    destruct custom as [url|]; cbn [server_args default from_option id Datatypes.app].
    - rewrite (parse_main_server so url _ _ _ Hso (Hurl url eq_refl)), Hsub.
      by rewrite bind_ret.
    - rewrite Hsub. by rewrite bind_ret. }
  split.
  - rewrite (Hrun "reiniciar" ReiniciarParser) by done.
    by rewrite (main_body_comando _ "reiniciar").
  - rewrite (Hrun "estado" EstadoParser) by done.
    by rewrite (main_body_comando _ "estado").
Qed.

Lemma bind_Ret_inv {A B : Type} (m : M A) (k : A → M B) (b : B) (out : list event) :
  m ≫= k = (Ret b, out) →
  ∃ a o1 o2, m = (Ret a, o1) ∧ k a = (Ret b, o2) ∧ out = o1 ++ o2.
Proof.
  destruct m as [[a|e] o1]; [|done].
  rewrite bind_value. unfold after. destruct (k a) as [r o2] eqn:Hk. cbn [fst snd].
  intros [= -> <-]. by exists a, o1, o2.
Qed.

Lemma groups_nonoption (argv : list string) :
  Forall (fun t => is_option t = false) (groups argv).1 ∧
  Forall (fun g => Forall (fun t => is_option t = false) g.2) (groups argv).2.
Proof.
  induction argv as [|arg argv [IHl IHg]]; [by split|].
  unfold groups in *. cbn [foldr].
  destruct (foldr group_step ([], []) argv) as [lead gs]. cbn [fst snd] in *.
  unfold group_step. destruct (is_option arg) eqn:Harg; cbn [fst snd]; split; auto;
    by constructor.
Qed.

Lemma parse_options_found (p : parser_id) (gs : list (string * list string))
    (found : option (list string)) (app extras : bool)
    (found' : option (list string)) (app' extras' : bool) (out : list event) :
  Forall (fun g => Forall (fun t => is_option t = false) g.2) gs →
  (∀ vals, found = Some vals →
     vals ≠ [] ∧ Forall (fun t => is_option t = false) vals) →
  parse_options p gs found app extras = (Ret (found', app', extras'), out) →
  ∀ vals, found' = Some vals →
    vals ≠ [] ∧ Forall (fun t => is_option t = false) vals.
Proof.
  intros Hall. revert found app extras.
  induction Hall as [|[opt vals] gs Hvals _ IH]; intros found app extras Hfound;
    cbn [parse_options].
  - by intros [= <- _ _ _].
  - destruct (one_of ["-h"; "--help"] opt); [done|].
    destruct (is_activar p && one_of ["-n"; "--nodes"] opt).
    + destruct vals as [|v vals]; [done|]. apply IH.
      intros vals' [= <-]. split; [done | exact Hvals].
    + destruct (is_activar p && one_of ["-a"; "--append"] opt); by apply IH.
Qed.

Lemma parse_subcommand_nodes (argv : list string) (vals : list string)
    (app extras : bool) (out : list event) :
  parse_subcommand ActivarParser argv = (Ret (vals, app, extras), out) →
  vals ≠ [] ∧ Forall (fun t => is_option t = false) vals.
Proof.
  unfold parse_subcommand. destruct (groups_nonoption argv) as [_ Hgs].
  destruct (groups argv) as [lead gs]. cbn [snd] in Hgs.
  intros ([[found app'] extras'] & o1 & o2 & Hopts & Hk & _)%bind_Ret_inv.
  destruct found as [vals'|]; cbn in Hk; [|discriminate Hk].
  inversion Hk; subst.
  assert (∀ vals0 : list string, None = Some vals0 →
            vals0 ≠ [] ∧ Forall (fun t => is_option t = false) vals0) as Hnone by done.
  by apply (parse_options_found _ _ _ _ _ _ _ _ _ Hgs Hnone Hopts).
Qed.

Lemma subparser_of_name (name : string) (p : parser_id) :
  subparser_of name = Some p →
  (name = "activar" ∧ p = ActivarParser) ∨
  (name = "reiniciar" ∧ p = ReiniciarParser) ∨
  (name = "estado" ∧ p = EstadoParser).
Proof.
  unfold subparser_of.
  destruct (String.eqb_spec name "activar") as [->|_]; [intros [= <-]; auto|].
  destruct (String.eqb_spec name "reiniciar") as [->|_]; [intros [= <-]; auto|].
  destruct (String.eqb_spec name "estado") as [->|_]; [intros [= <-]; auto|].
  done.
Qed.

Lemma parse_main_well_formed (argv : list string) (url : string) (extras : bool)
    (args : namespace) (out : list event) :
  parse_main argv url extras = (Ret args, out) → well_formed_args args.
Proof.
  remember (length argv) as n eqn:Hn. revert argv url extras Hn.
  induction n as [n IH] using lt_wf_ind. intros argv url extras ->.
  destruct argv as [|arg rest]; cbn [parse_main].
  { unfold finish_parse. destruct extras; [done|]. intros [= <- _]. by left. }
  destruct (one_of ["-h"; "--help"] arg); [done|].
  destruct (one_of ["-s"; "--server"] arg).
  { destruct rest as [|value rest]; [done|].
    destruct (is_option value); [done|].
    eapply IH; [|done]. simpl. lia. }
  destruct (is_option arg).
  { eapply IH; [|done]. simpl. lia. }
  destruct (subparser_of arg) as [p|] eqn:Hp; [|done].
  intros ([[vals app] extras'] & o1 & o2 & Hsub & Hfin & _)%bind_Ret_inv.
  unfold finish_parse in Hfin. destruct (extras || extras'); [done|].
  injection Hfin as <- _. unfold well_formed_args. cbn [comando nodes].
  destruct (subparser_of_name arg p Hp) as [[-> ->]|[[-> ->]|[-> ->]]]; auto.
  right. right. right. split; [done|]. by apply (parse_subcommand_nodes rest vals app extras' o1).
Qed.

(** X14: every namespace [parse_args] returns has no subcommand, or
    [reiniciar], or [estado], or [activar] together with at least one node
    token, none starting with a dash; nothing has been printed by then,
    and the last [else] of the script (help without exit) is never
    reached. *)
Theorem parsed_namespace_well_formed (argv : list string) (args : namespace)
    (out : list event) :
  parse_args argv = Some (Ret args, out) →
  out = [] ∧
  well_formed_args args ∧
  (no_comando args = true ∨ comando_is args "activar" = true ∨
   comando_is args "reiniciar" = true ∨ comando_is args "estado" = true).
Proof.
  intros Hparse.
  assert (out = []) as ->.
  { destruct (parse_args_outcome argv _ Hparse)
      as [[a [= _ ->]]|[[q [=]]|(q & why & [=])]]. done. }
  assert (well_formed_args args) as Hwf.
  { unfold parse_args in Hparse. destruct (modelled argv); [|done].
    injection Hparse as Hparse. by apply parse_main_well_formed in Hparse. }
  repeat split; try done.
  unfold no_comando, comando_is.
  destruct Hwf as [->|[->|[->|[-> _]]]]; auto.
Qed.

Lemma groups_nil (argv : list string) : groups argv = ([], []) → argv = [].
Proof.
  destruct argv as [|arg argv]; [done|].
  unfold groups. cbn [foldr].
  destruct (foldr group_step ([], []) argv) as [lead gs].
  unfold group_step. by destruct (is_option arg).
Qed.

Lemma parse_options_simple (p : parser_id) (gs : list (string * list string))
    (extras : bool) :
  is_activar p = false →
  Forall (fun g => one_of ["-h"; "--help"] g.1 = false) gs →
  parse_options p gs None false extras = ret (None, false, extras || nonempty gs).
Proof.
  intros Hp Hall. revert extras.
  induction Hall as [|[opt vals] gs Hh _ IH]; intros extras; cbn [parse_options].
  - by rewrite orb_false_r.
  - cbn [fst] in Hh. rewrite Hh, Hp. cbn [andb]. rewrite IH.
    cbn [nonempty]. by rewrite orb_true_r.
Qed.

(** X15: [reiniciar] and [estado] take no argument: with anything after
    the subcommand except a request for help, [argparse] refuses the
    command line as unrecognized arguments, and the script exits with
    status 2 without running the operation. *)
Theorem simple_subcommand_takes_no_argument (name : string) (p : parser_id)
    (rest : list string) :
  subparser_of name = Some p →
  is_activar p = false →
  rest ≠ [] →
  modelled rest = true →
  (∀ o, o ∈ ["-h"; "--help"] → o ∉ rest) →
  script (name :: rest)
    = Some (Raise (SystemExit 2), [UsageError MainParser UnrecognizedArguments]) ∧
  script_status (name :: rest) = Some 2%Z.
Proof.
  intros Hp Hsimple Hne Hmod Hno.
  assert (script (name :: rest)
          = Some (Raise (SystemExit 2), [UsageError MainParser UnrecognizedArguments]))
    as Hs.
  { assert (is_option name = false) as Hname
      by (destruct (subparser_of_name name p Hp) as [[-> _]|[[-> _]|[-> _]]]; done).
    unfold script, parse_args.
    change (modelled (name :: rest))
      with ((negb (is_option name) || one_of option_strings name) && modelled rest).
    rewrite Hname, Hmod. cbn [negb orb andb].
    rewrite (parse_main_subcommand name p rest _ _ Hp).
    unfold parse_subcommand.
    pose proof (groups_options rest) as Hgs. pose proof (groups_nil rest) as Hnil.
    destruct (groups rest) as [lead gs]. cbn [snd] in Hgs.
    rewrite (parse_options_simple p gs (nonempty lead) Hsimple).
    2: { eapply Forall_impl; [exact Hgs|]. intros [opt vals] Hin. cbn [fst] in *.
         apply one_of_false. intros o Ho <-. by apply (Hno o). }
    rewrite bind_ret.
    assert (nonempty lead || nonempty gs = true) as ->.
    { destruct lead, gs; try done. by destruct Hne, Hnil. }
    rewrite Hsimple, bind_ret. reflexivity. }
  split; [done|]. unfold script_status. by rewrite Hs.
Qed.

End Client.

(** ** Examples

    The properties above at concrete inputs, with the environment of the
    examples: a server with one fixed answer and the plain renderer. *)

(** The tokens [144:Visual], [7:a:b] and [144]. *)
Lemma parse_node_spec_example :
  parse_node "144:Visual" = ret ("144", "Visual") ∧
  parse_node "7:a:b" = ret ("7", "a:b") ∧
  (∃ id name, "7:a:b" = id +:+ ":" +:+ name ∧ Str.has_char ":" id = false) ∧
  parse_node "144" = ret ("144", "Neuron 144").
Proof.
  split; [|split; [|split]].
  - apply (proj1 (parse_node_spec "144:Visual") "144" "Visual"); reflexivity.
  - apply (proj1 (parse_node_spec "7:a:b") "7" "a:b"); reflexivity.
  - apply (proj1 (proj2 (parse_node_spec "7:a:b"))). reflexivity.
  - apply (proj2 (proj2 (parse_node_spec "144"))). reflexivity.
Defined.

(** The token [144:] has the empty name. *)
Lemma parse_node_empty_name_example :
  Str.has_char ":" "144" = false ∧
  parse_node "144:" = ret ("144", EmptyString) ∧
  parse_node "144:Visual:" = ret ("144", "Visual:").
Proof.
  split; [reflexivity|].
  destruct (parse_node_empty_name "144" eq_refl) as (Hempty & _ & Hlast).
  split; [exact Hempty | exact (Hlast "Visual")].
Defined.

(** C9, a token that ends in a colon, and one with an empty piece after the
    first colon, whose names are not empty. *)
Lemma trailing_colon_keeps_name :
  "a:b:" = "a:b" +:+ ":" ∧
  parse_node "a:b:" = ret ("a", "b:") ∧
  Str.split ":" "a::b" = ["a"; EmptyString; "b"] ∧
  parse_node "a::b" = ret ("a", ":b").
Proof. repeat split. Qed.

(** The answer of the specification's example: [1] and [2] are active, the
    nodes [1] and [3] were requested. *)
Lemma activation_report_example :
  activar_nodos
    (answering (ok_json (JDict [("activeNodes", JList [JStr "1"; JStr "2"])])))
    show_dumps show [("1", "A"); ("3", "C")] false DEFAULT_SERVER_URL
  = (Ret tt,
     [Print "Enviando petición a http://localhost:3000/api/brain/activate";
      Print "Datos: {'nodes': [{'id': '1', 'name': 'A'}, {'id': '3', 'name': 'C'}], 'append': false}";
      Print (Str.LF +:+ "✅ Nodos activados");
      Print "Estado: {'activeNodes': ['1', '2']}";
      Print (Str.LF +:+ "Nodos activos:");
      Print " ➤ 1 - A";
      Print "   3 - C";
      Print (Str.LF +:+ "⚠️ Advertencia: Algunos nodos solicitados no fueron activados:");
      Print "  3 - C"]).
Proof.
  apply (proj1 (proj1 (activation_report
    (answering (ok_json (JDict [("activeNodes", JList [JStr "1"; JStr "2"])])))
    show_dumps show [("1", "A"); ("3", "C")] false DEFAULT_SERVER_URL
    (Response 200 "<body>" (inr (JDict [("activeNodes", JList [JStr "1"; JStr "2"])])))
    [("activeNodes", JList [JStr "1"; JStr "2"])] eq_refl eq_refl eq_refl)
    [JStr "1"; JStr "2"] eq_refl ltac:(discriminate) ltac:(repeat constructor))).
Defined.

(** C1, an answer whose [activeNodes] is empty: node [3] was requested and
    is not active, and no warning is printed. *)
Lemma no_warning_when_none_active :
  activar_nodos (answering (ok_json (JDict [("activeNodes", JList [])])))
    show_dumps show [("3", "C")] false DEFAULT_SERVER_URL
  = (Ret tt,
     [Print "Enviando petición a http://localhost:3000/api/brain/activate";
      Print "Datos: {'nodes': [{'id': '3', 'name': 'C'}], 'append': false}";
      Print (Str.LF +:+ "✅ Nodos activados");
      Print "Estado: {'activeNodes': []}"]) ∧
  "3" ∈ (list_to_set [("3", "C")].*1 : gset string) ∖ ∅ ∧
  active_id [] "3" = false.
Proof.
  split; [reflexivity|]. split; [|reflexivity].
  apply elem_of_difference. split; [|apply not_elem_of_empty].
  apply elem_of_list_to_set. by left.
Qed.

(** A server that answers 500 to each of the three operations. *)
Lemma http_error_reported_example :
  let resp := Response 500 "Internal Server Error" (inl (Exception ValueError "Expecting value")) in
  let http := answering (inr resp) in
  activar_nodos http show_dumps show [("1", "A")] false DEFAULT_SERVER_URL
    = (Ret tt,
       [Print "Enviando petición a http://localhost:3000/api/brain/activate";
        Print "Datos: {'nodes': [{'id': '1', 'name': 'A'}], 'append': false}";
        Print "❌ Error: 500 - Internal Server Error"]) ∧
  reiniciar http DEFAULT_SERVER_URL
    = (Ret tt,
       [Print "Enviando petición a http://localhost:3000/api/brain/reset";
        Print "❌ Error: 500 - Internal Server Error"]) ∧
  verificar_estado http show_dumps show DEFAULT_SERVER_URL
    = (Ret tt,
       [Print "Enviando petición a http://localhost:3000/api/brain/status";
        Print "❌ Error: 500 - Internal Server Error"]) ∧
  exit_status (main_body http show_dumps show
                 (Namespace DEFAULT_SERVER_URL (Some "estado") [] false)).1 = 0%Z.
Proof.
  intros resp http.
  destruct (http_error_reported http show_dumps show resp ltac:(discriminate))
    as (Hact & Hreset & Hstatus & Hexit).
  split; [|split; [|split]].
  - exact (Hact [("1", "A")] false DEFAULT_SERVER_URL eq_refl).
  - exact (Hreset DEFAULT_SERVER_URL eq_refl).
  - exact (Hstatus DEFAULT_SERVER_URL eq_refl).
  - exact (Hexit (Namespace DEFAULT_SERVER_URL (Some "estado") [] false) eq_refl).
Defined.

(** A server that cannot be reached. *)
Lemma transport_error_reported_example :
  let http := answering (inl (Exception RequestException "Connection refused")) in
  activar_nodos http show_dumps show [("1", "A")] false DEFAULT_SERVER_URL
    = (Ret tt,
       [Print "Enviando petición a http://localhost:3000/api/brain/activate";
        Print "Datos: {'nodes': [{'id': '1', 'name': 'A'}], 'append': false}";
        Print "❌ Error de conexión: Connection refused"]) ∧
  reiniciar http DEFAULT_SERVER_URL
    = (Ret tt,
       [Print "Enviando petición a http://localhost:3000/api/brain/reset";
        Print "❌ Error de conexión: Connection refused"]) ∧
  verificar_estado http show_dumps show DEFAULT_SERVER_URL
    = (Ret tt,
       [Print "Enviando petición a http://localhost:3000/api/brain/status";
        Print "❌ Error de conexión: Connection refused"]) ∧
  exit_status (main_body http show_dumps show
                 (Namespace DEFAULT_SERVER_URL (Some "reiniciar") [] false)).1 = 0%Z.
Proof.
  intros http.
  destruct (transport_error_reported http show_dumps show
              (Exception RequestException "Connection refused"))
    as (Hact & Hreset & Hstatus & Hexit).
  split; [|split; [|split]].
  - exact (Hact [("1", "A")] false DEFAULT_SERVER_URL eq_refl).
  - exact (Hreset DEFAULT_SERVER_URL eq_refl).
  - exact (Hstatus DEFAULT_SERVER_URL eq_refl).
  - exact (Hexit (Namespace DEFAULT_SERVER_URL (Some "reiniciar") [] false) eq_refl).
Defined.

(** The empty command line, and a command line with only [--server]. *)
Lemma no_subcommand_example :
  script (answering (ok_json JNull)) show_dumps show []
    = Some (Raise (SystemExit 1), [PrintHelp MainParser]) ∧
  script_status (answering (ok_json JNull)) show_dumps show [] = Some 1%Z ∧
  script_status (answering (ok_json JNull)) show_dumps show ["--server"; "http://host"]
    = Some 1%Z.
Proof.
  split; [|split].
  - exact (proj1 (proj2 (no_subcommand_exits_1 (answering (ok_json JNull)) show_dumps show
             [] (Namespace DEFAULT_SERVER_URL None [] false) [] eq_refl eq_refl))).
  - exact (proj2 (proj2 (no_subcommand_exits_1 (answering (ok_json JNull)) show_dumps show
             [] (Namespace DEFAULT_SERVER_URL None [] false) [] eq_refl eq_refl))).
  - exact (proj2 (proj2 (no_subcommand_exits_1 (answering (ok_json JNull)) show_dumps show
             ["--server"; "http://host"] (Namespace "http://host" None [] false) []
             eq_refl eq_refl))).
Defined.

(** A status answer with a bare entry, an object with a name and an object
    without, and a status answer without [activeNodes]. *)
Lemma status_report_example :
  verificar_estado
    (answering (ok_json (JDict [("activeNodes",
       JList [JStr "144"; JDict [("id", JStr "145"); ("name", JStr "Motor")];
              JDict [("id", JNum 7)]])])))
    show_dumps show DEFAULT_SERVER_URL
  = (Ret tt,
     [Print "Enviando petición a http://localhost:3000/api/brain/status";
      Print (Str.LF +:+ "✅ Estado actual:");
      Print (Str.LF +:+ "Hay 3 nodos activos:");
      Print " 1. 144 - Sin nombre";
      Print " 2. 145 - Motor";
      Print " 3. 7 - Sin nombre";
      Print (Str.LF +:+ "Respuesta completa:");
      Print "{'activeNodes': ['144', {'id': '145', 'name': 'Motor'}, {'id': 7}]}"]) ∧
  verificar_estado (answering (ok_json (JDict []))) show_dumps show DEFAULT_SERVER_URL
  = (Ret tt,
     [Print "Enviando petición a http://localhost:3000/api/brain/status";
      Print (Str.LF +:+ "✅ Estado actual:");
      Print (Str.LF +:+ "No hay nodos activos actualmente");
      Print (Str.LF +:+ "Respuesta completa:");
      Print "{}"]).
Proof.
  split.
  - apply (proj1 (status_report
      (answering (ok_json (JDict [("activeNodes",
         JList [JStr "144"; JDict [("id", JStr "145"); ("name", JStr "Motor")];
                JDict [("id", JNum 7)]])])))
      show_dumps show DEFAULT_SERVER_URL _ _ eq_refl eq_refl eq_refl)
      [JStr "144"; JDict [("id", JStr "145"); ("name", JStr "Motor")]; JDict [("id", JNum 7)]]
      eq_refl ltac:(discriminate) ltac:(repeat constructor)).
  - apply (proj2 (status_report (answering (ok_json (JDict []))) show_dumps show
      DEFAULT_SERVER_URL _ _ eq_refl eq_refl eq_refl) eq_refl).
Defined.

(** A status answer whose second entry is an object without [id]. *)
Lemma status_entry_without_id_example :
  verificar_estado
    (answering (ok_json (JDict [("activeNodes",
       JList [JStr "144"; JDict [("name", JStr "Motor")]; JStr "146"])])))
    show_dumps show DEFAULT_SERVER_URL
  = (Ret tt,
     [Print "Enviando petición a http://localhost:3000/api/brain/status";
      Print (Str.LF +:+ "✅ Estado actual:");
      Print (Str.LF +:+ "Hay 3 nodos activos:");
      Print " 1. 144 - Sin nombre";
      Print "❌ Error de conexión: 'id'"]).
Proof.
  apply (proj2 (status_entry_without_id
    (answering (ok_json (JDict [("activeNodes",
       JList [JStr "144"; JDict [("name", JStr "Motor")]; JStr "146"])])))
    show_dumps show DEFAULT_SERVER_URL _ _
    [JStr "144"] [JStr "146"] [("name", JStr "Motor")]
    eq_refl eq_refl eq_refl eq_refl ltac:(repeat constructor) eq_refl)).
Defined.

(** C6, [activar] without [--nodes]: the exit status is 2, not 1. *)
Lemma missing_nodes_exits_2 :
  script (answering (ok_json JNull)) show_dumps show ["activar"]
    = Some (Raise (SystemExit 2), [UsageError ActivarParser MissingRequired]) ∧
  script_status (answering (ok_json JNull)) show_dumps show ["activar"] = Some 2%Z.
Proof. split; reflexivity. Qed.

(** [activar --append] without [--nodes], a stray argument after [estado],
    and the only way to exit status 1. *)
Lemma argument_errors_example :
  script_status (answering (ok_json JNull)) show_dumps show ["activar"; "--append"]
    = Some 2%Z ∧
  script (answering (ok_json JNull)) show_dumps show ["estado"; "extra"]
    = Some (Raise (SystemExit 2), [UsageError MainParser UnrecognizedArguments]) ∧
  (∃ args, parse_args [] = Some (ret args) ∧ no_comando args = true).
Proof.
  destruct (argument_errors_exit_2 (answering (ok_json JNull)) show_dumps show)
    as (Hmissing & Herror & Hone).
  split; [|split].
  - apply (Hmissing ["--append"] eq_refl).
    intros o Ho Hin. apply list_elem_of_In in Ho, Hin. simpl in Ho, Hin.
    intuition congruence.
  - apply (Herror ["estado"; "extra"] _ _ MainParser UnrecognizedArguments eq_refl).
    by left.
  - apply (Hone []). reflexivity.
Defined.

(** ** Further properties of the script, for any two environments *)

(** X11: the exit status of the script is decided by the command line
    alone: two runs on the same command line exit with the same status
    whatever the servers answer and however values are rendered, and the
    status is 0, 1 or 2. *)
Theorem exit_status_ignores_server
    (http1 http2 : request → exception + response)
    (dumps1 dumps2 : bool → json → string) (repr1 repr2 : json → string)
    (argv : list string) :
  script_status http1 dumps1 repr1 argv = script_status http2 dumps2 repr2 argv ∧
  (∀ c, script_status http1 dumps1 repr1 argv = Some c →
     c = 0%Z ∨ c = 1%Z ∨ c = 2%Z).
Proof.
  rewrite !script_status_of_parse. split; [done|].
  intros c. destruct (parse_args argv) as [parsed|] eqn:Hparse; [|done].
  intros [= <-]. by apply (status_of_parse_range argv).
Qed.

(** ** Examples of the further properties *)

(** A reset confirmed by a 200 answer whose body is not JSON. *)
Lemma reset_confirmed_example :
  reiniciar (answering (inr (Response 200 "OK" (inl (Exception ValueError "Expecting value")))))
    DEFAULT_SERVER_URL
  = (Ret tt,
     [Print "Enviando petición a http://localhost:3000/api/brain/reset";
      Print (Str.LF +:+ "✅ Visualización reiniciada")]).
Proof.
  apply (reset_confirmed
    (answering (inr (Response 200 "OK" (inl (Exception ValueError "Expecting value")))))
    DEFAULT_SERVER_URL _ eq_refl eq_refl).
Defined.

(** A 200 answer with an HTML page as body. *)
Lemma undecodable_body_example :
  let resp := Response 200 "<html></html>" (inl (Exception ValueError "Expecting value")) in
  activar_nodos (answering (inr resp)) show_dumps show [("1", "A")] false DEFAULT_SERVER_URL
    = (Ret tt,
       [Print "Enviando petición a http://localhost:3000/api/brain/activate";
        Print "Datos: {'nodes': [{'id': '1', 'name': 'A'}], 'append': false}";
        Print "❌ Error de conexión: Expecting value"]) ∧
  verificar_estado (answering (inr resp)) show_dumps show DEFAULT_SERVER_URL
    = (Ret tt,
       [Print "Enviando petición a http://localhost:3000/api/brain/status";
        Print "❌ Error de conexión: Expecting value"]).
Proof.
  intros resp.
  destruct (undecodable_body_reported (answering (inr resp)) show_dumps show resp
              (Exception ValueError "Expecting value") eq_refl eq_refl) as [Hact Hstatus].
  split.
  - exact (Hact [("1", "A")] false DEFAULT_SERVER_URL eq_refl).
  - exact (Hstatus DEFAULT_SERVER_URL eq_refl).
Defined.


(** An answer whose [activeNodes] is an object keyed by id. *)
Lemma active_object_example :
  activar_nodos
    (answering (ok_json (JDict [("activeNodes", JDict [("1", JBool true)])])))
    show_dumps show [("1", "A"); ("3", "C")] false DEFAULT_SERVER_URL
  = (Ret tt,
     [Print "Enviando petición a http://localhost:3000/api/brain/activate";
      Print "Datos: {'nodes': [{'id': '1', 'name': 'A'}, {'id': '3', 'name': 'C'}], 'append': false}";
      Print (Str.LF +:+ "✅ Nodos activados");
      Print "Estado: {'activeNodes': {'1': true}}";
      Print (Str.LF +:+ "Nodos activos:");
      Print " ➤ 1 - A";
      Print "   3 - C";
      Print (Str.LF +:+ "⚠️ Advertencia: Algunos nodos solicitados no fueron activados:");
      Print "  3 - C"]).
Proof.
  apply (active_object_as_keys
    (answering (ok_json (JDict [("activeNodes", JDict [("1", JBool true)])])))
    show_dumps show [("1", "A"); ("3", "C")] false DEFAULT_SERVER_URL _
    [("activeNodes", JDict [("1", JBool true)])] [("1", JBool true)]
    eq_refl eq_refl eq_refl eq_refl ltac:(discriminate)).
Defined.


(** An answer whose [activeNodes] list holds an object. *)
Lemma unhashable_active_entry_example :
  ∃ msg,
    activar_nodos
      (answering (ok_json (JDict [("activeNodes",
         JList [JStr "1"; JDict [("id", JStr "3")]])])))
      show_dumps show [("1", "A"); ("3", "C")] false DEFAULT_SERVER_URL
    = (Ret tt,
       [Print "Enviando petición a http://localhost:3000/api/brain/activate";
        Print "Datos: {'nodes': [{'id': '1', 'name': 'A'}, {'id': '3', 'name': 'C'}], 'append': false}";
        Print (Str.LF +:+ "✅ Nodos activados");
        Print "Estado: {'activeNodes': ['1', {'id': '3'}]}";
        Print (Str.LF +:+ "Nodos activos:");
        Print " ➤ 1 - A";
        Print "   3 - C";
        Print ("❌ Error de conexión: " +:+ msg)]).
Proof.
  apply (unhashable_active_entry
    (answering (ok_json (JDict [("activeNodes",
       JList [JStr "1"; JDict [("id", JStr "3")]])])))
    show_dumps show [("1", "A"); ("3", "C")] false DEFAULT_SERVER_URL _
    [("activeNodes", JList [JStr "1"; JDict [("id", JStr "3")]])]
    [JStr "1"] [] (JDict [("id", JStr "3")])
    eq_refl eq_refl eq_refl eq_refl ltac:(repeat constructor) eq_refl).
Defined.

(** An answer whose [activeNodes] is the number 2. *)
Lemma scalar_active_nodes_example :
  let http := answering (ok_json (JDict [("activeNodes", JNum 2)])) in
  (∃ msg,
     activar_nodos http show_dumps show [("1", "A")] false DEFAULT_SERVER_URL
     = (Ret tt,
        [Print "Enviando petición a http://localhost:3000/api/brain/activate";
         Print "Datos: {'nodes': [{'id': '1', 'name': 'A'}], 'append': false}";
         Print (Str.LF +:+ "✅ Nodos activados");
         Print "Estado: {'activeNodes': 2}";
         Print (Str.LF +:+ "Nodos activos:");
         Print ("❌ Error de conexión: " +:+ msg)])) ∧
  (∃ msg,
     verificar_estado http show_dumps show DEFAULT_SERVER_URL
     = (Ret tt,
        [Print "Enviando petición a http://localhost:3000/api/brain/status";
         Print (Str.LF +:+ "✅ Estado actual:");
         Print ("❌ Error de conexión: " +:+ msg)])).
Proof.
  intros http.
  destruct (scalar_active_nodes http show_dumps show
              (Response 200 "<body>" (inr (JDict [("activeNodes", JNum 2)])))
              [("activeNodes", JNum 2)] (JNum 2)
              eq_refl eq_refl eq_refl eq_refl eq_refl) as [Hact Hstatus].
  split.
  - exact (Hact [("1", "A")] false DEFAULT_SERVER_URL eq_refl).
  - exact (Hstatus DEFAULT_SERVER_URL eq_refl).
Defined.

(** The tokens [7:a:b] and [144] give back their pieces. *)
Lemma parse_node_round_trip_example :
  Str.has_char ":" "7" = false ∧ "7:a:b" = "7" +:+ ":" +:+ "a:b" ∧
  Str.has_char ":" "144" = false.
Proof.
  destruct (parse_node_round_trip "7:a:b" "7" "a:b" eq_refl) as (Hid & Hcolon & _).
  destruct (parse_node_round_trip "144" "144" "Neuron 144" eq_refl) as (Hid' & _ & _).
  split; [exact Hid|]. split; [exact (Hcolon eq_refl) | exact Hid'].
Defined.

(** A server URL without scheme, refused by the HTTP library with a
    [ValueError]. *)
Lemma request_error_in_activar_branch_example :
  activar_branch
    (answering (inl (Exception ValueError "Invalid URL 'host/activate': No scheme supplied")))
    show_dumps show ["1:A"] false "host"
  = (Ret tt,
     [Print "Enviando petición a host/activate";
      Print "Datos: {'nodes': [{'id': '1', 'name': 'A'}], 'append': false}";
      Print "❌ Error de conexión: Invalid URL 'host/activate': No scheme supplied"]).
Proof.
  apply (request_error_in_activar_branch
    (answering (inl (Exception ValueError "Invalid URL 'host/activate': No scheme supplied")))
    show_dumps show ["1:A"] false "host"
    (Exception ValueError "Invalid URL 'host/activate': No scheme supplied")
    [("1", "A")]).
  - repeat constructor.
  - reflexivity.
Defined.

(** Two servers, one that accepts and one that cannot be reached: the same
    exit status. *)
Lemma exit_status_ignores_server_example :
  script_status (answering (ok_json (JDict []))) show_dumps show ["estado"]
  = script_status (answering (inl (Exception RequestException "Connection refused")))
      show_dumps show ["estado"] ∧
  script_status (answering (ok_json (JDict []))) show_dumps show ["estado"] = Some 0%Z.
Proof.
  split; [|reflexivity].
  apply (proj1 (exit_status_ignores_server
    (answering (ok_json (JDict [])))
    (answering (inl (Exception RequestException "Connection refused")))
    show_dumps show_dumps show show ["estado"])).
Defined.

(** [-s http://host activar -n 144:Visual 145 -a]. *)
Lemma script_runs_activar_example :
  ∃ node_data,
    Forall2 (fun s p => parse_node s = ret p) ["144:Visual"; "145"] node_data ∧
    script (answering (ok_json (JDict []))) show_dumps show
      ["-s"; "http://host"; "activar"; "-n"; "144:Visual"; "145"; "-a"]
    = Some (activar_nodos (answering (ok_json (JDict []))) show_dumps show
              node_data true "http://host").
Proof.
  apply (script_runs_activar (answering (ok_json (JDict []))) show_dumps show
    "-s" "-n" "-a" (Some "http://host") ["144:Visual"; "145"] true
    eq_refl eq_refl eq_refl).
  - by intros url [= <-].
  - discriminate.
  - repeat constructor.
Defined.

(** [reiniciar] and [--server http://host estado]. *)
Lemma script_runs_simple_example :
  script (answering (ok_json (JDict []))) show_dumps show ["reiniciar"]
    = Some (reiniciar (answering (ok_json (JDict []))) DEFAULT_SERVER_URL) ∧
  script (answering (ok_json (JDict []))) show_dumps show
    ["--server"; "http://host"; "estado"]
    = Some (verificar_estado (answering (ok_json (JDict []))) show_dumps show
              "http://host").
Proof.
  split.
  - apply (proj1 (script_runs_simple (answering (ok_json (JDict []))) show_dumps show
      "-s" None eq_refl ltac:(discriminate))).
  - apply (proj2 (script_runs_simple (answering (ok_json (JDict []))) show_dumps show
      "--server" (Some "http://host") eq_refl ltac:(by intros url [= <-]))).
Defined.

(** The namespace of [activar --nodes 1:A 3]. *)
Lemma parsed_namespace_example :
  well_formed_args (Namespace DEFAULT_SERVER_URL (Some "activar") ["1:A"; "3"] false) ∧
  parse_args ["activar"; "--nodes"; "1:A"; "3"]
    = Some (Ret (Namespace DEFAULT_SERVER_URL (Some "activar") ["1:A"; "3"] false), []).
Proof.
  split; [|reflexivity].
  apply (parsed_namespace_well_formed ["activar"; "--nodes"; "1:A"; "3"]
    (Namespace DEFAULT_SERVER_URL (Some "activar") ["1:A"; "3"] false) [] eq_refl).
Defined.

(** [estado 144]. *)
Lemma simple_subcommand_example :
  script (answering (ok_json (JDict []))) show_dumps show ["estado"; "144"]
    = Some (Raise (SystemExit 2), [UsageError MainParser UnrecognizedArguments]) ∧
  script_status (answering (ok_json (JDict []))) show_dumps show ["estado"; "144"]
    = Some 2%Z.
Proof.
  apply (simple_subcommand_takes_no_argument (answering (ok_json (JDict [])))
    show_dumps show "estado" EstadoParser ["144"] eq_refl eq_refl
    ltac:(discriminate) eq_refl).
  intros o Ho Hin. apply list_elem_of_In in Ho, Hin. simpl in Ho, Hin.
  intuition congruence.
Defined.
